(** * ironic_python_agent/ironic_api_client.py : lookup and heartbeat

    A shallow embedding of [APIClient] (lookup_node, _do_lookup with its
    inner next_interval, heartbeat, _get_agent_url) and of the
    DynamicLoopingCall that drives _do_lookup.

    Python values that reach the code are modelled as follows:
    - JSON documents (request and response bodies) as the inductive [json];
    - numbers of the backoff bookkeeping (intervals, total_time, timeout) as
      [Z] seconds;
    - exceptions as the inductive [exc]; a function that may raise returns a
      [call_outcome] (or a sum);
    - the HTTP session as a function from the index of the call (0 for the
      first request, 1 for the second, ...) and the request to the result:
      the network is an input of the program, and it may answer differently
      at each call. *)

From Stdlib Require Import ZArith List String Ascii Bool Lia QArith DecimalZ.
Import ListNotations.
Open Scope string_scope.
Open Scope list_scope.
Open Scope Z_scope.
Set Warnings "-register-all".

(** ** Python values *)

Inductive json : Type :=
| JNull
| JBool (b : bool)
| JNum (n : Z)
| JStr (s : string)
| JArr (l : list json)
| JObj (kv : list (string * json)).

(** Exceptions raised by the code (or by the looping call). *)
Inductive exc : Type :=
| LoopingCallDone (retvalue : json)
| TypeError
| KeyError
| IndexError
| ValueError
| LookupNodeError (msg : string)
| HeartbeatError (msg : string)
| TransportError (msg : string).

(** Python's [True] singleton, the default [retvalue] of LoopingCallDone. *)
Definition py_True : json := JBool true.

(** [x is True]. *)
Definition is_py_True (x : json) : bool :=
  match x with JBool true => true | _ => false end.

Fixpoint str_prefix (p s : string) : bool :=
  match p, s with
  | EmptyString, _ => true
  | String a p', String b s' => Ascii.eqb a b && str_prefix p' s'
  | String _ _, EmptyString => false
  end.

(** [p in s] for two Python strings: substring test. *)
Fixpoint str_contains (p s : string) : bool :=
  str_prefix p s ||
  match s with
  | EmptyString => false
  | String _ s' => str_contains p s'
  end.

(** A JSON object decodes to a dict in which the last binding of a
    duplicated key wins. *)
Fixpoint obj_get (kv : list (string * json)) (k : string) : option json :=
  match kv with
  | [] => None
  | (k', v) :: rest =>
      match obj_get rest k with
      | Some w => Some w
      | None => if String.eqb k k' then Some v else None
      end
  end.

(** [k in c] for a string [k] and a decoded JSON value [c]: key membership
    for a dict, element equality for a list, substring for a str, and a
    TypeError for None, bool and numbers (not iterable). *)
Definition py_contains (k : string) (c : json) : exc + bool :=
  match c with
  | JObj kv => inr (if obj_get kv k then true else false)
  | JArr l => inr (existsb (fun x => match x with
                                      | JStr s => String.eqb s k
                                      | _ => false end) l)
  | JStr s => inr (str_contains k s)
  | JNull | JBool _ | JNum _ => inl TypeError
  end.

(** [c[k]] for a string [k]: dict lookup (KeyError when absent); list and
    str indices must be integers, and None, bool and numbers are not
    subscriptable. *)
Definition py_getitem (c : json) (k : string) : exc + json :=
  match c with
  | JObj kv => match obj_get kv k with Some v => inr v | None => inl KeyError end
  | _ => inl TypeError
  end.

(** ** The HTTP session *)

Record request : Type := mk_request {
  req_method : string;
  req_url : string;
  req_data : option json
}.

(** A response: [content] is the body as [json.loads] sees it ([None] when
    [json.loads] raises). Headers are a case-insensitive mapping. *)
Record response : Type := mk_response {
  status_code : Z;
  headers : list (string * string);
  content : option json
}.

Inductive transport_result : Type :=
| TransportFailed (e : exc)
| Responded (r : response).

(** The network: answer to the [k]-th request of the call. *)
Definition transport := nat -> request -> transport_result.

Definition codes_OK : Z := 200.
Definition codes_NO_CONTENT : Z := 204.

Definition api_version : string := "v1".

(** [APIClient._request]: the URL is [api_url ++ path]; encoding the data
    and the session call are the transport's business. *)
Definition _request (net : transport) (k : nat) (api_url method path : string)
    (data : option json) : transport_result :=
  net k (mk_request method (String.append api_url path) data).

(** ** _do_lookup and next_interval *)

(** The two mutable lists [intervals] and [total_time] threaded through
    the runs of the looping call ([total_time[0]] is [total_time]). *)
Record retry_state : Type := mk_retry_state {
  intervals : list Z;
  total_time : Z
}.

(** Result of calling a Python function: a returned value or a raised
    exception. *)
Inductive call_outcome : Type :=
| Returned (idle : Z)
| Raised (e : exc).

Inductive log_entry : Type :=
| W_post_failed (e : exc)
| W_invalid_status (code : Z)
| W_decode_error
| W_invalid_node (c : json)
| W_invalid_heartbeat (c : json).

(** [intervals[-1]]. *)
Definition py_last (l : list Z) : option Z :=
  match rev l with [] => None | x :: _ => Some x end.

(** [next_interval(timeout, intervals, total_time)]. *)
Definition next_interval (timeout : Z) (st : retry_state)
    : call_outcome * retry_state :=
  match py_last (intervals st) with
  | None => (Raised IndexError, st)
  | Some last =>
      let new_interval := last * 2 in
      if total_time st + new_interval >? timeout then
        (* No retvalue signifies error *)
        (Raised (LoopingCallDone py_True), st)
      else
        (Returned new_interval,
         mk_retry_state (intervals st ++ [new_interval])
                        (total_time st + new_interval))
  end.

Definition lookup_path : string :=
  String.append "/"
    (String.append api_version "/drivers/teeth/vendor_passthru/lookup").

(** The body of [_do_lookup(hardware_info, timeout, intervals, total_time)],
    run as the [k]-th call of the looping call; it also returns the
    warnings it logs. [next] is [next_interval(timeout, intervals,
    total_time)] on the store [St] that holds the two lists: the body never
    touches them otherwise. *)
Definition do_lookup_body {St : Type} (next : St -> call_outcome * St)
    (net : transport) (api_url : string) (k : nat) (hardware_info : json)
    (st : St) : call_outcome * St * list log_entry :=
  let data := JObj [("hardware", hardware_info)] in
  let retry w := let '(o, st') := next st in (o, st', [w]) in
  match _request net k api_url "POST" lookup_path (Some data) with
  | TransportFailed e => retry (W_post_failed e)
  | Responded response =>
      if status_code response =? codes_OK then
        match content response with
        | None => retry W_decode_error
        | Some c =>
            (* 'node' not in content or 'uuid' not in content['node'] *)
            match py_contains "node" c with
            | inl e => (Raised e, st, [])
            | inr false => retry (W_invalid_node c)
            | inr true =>
                match py_getitem c "node" with
                | inl e => (Raised e, st, [])
                | inr n =>
                    match py_contains "uuid" n with
                    | inl e => (Raised e, st, [])
                    | inr false => retry (W_invalid_node c)
                    | inr true =>
                        match py_contains "heartbeat_timeout" c with
                        | inl e => (Raised e, st, [])
                        | inr false => retry (W_invalid_heartbeat c)
                        | inr true =>
                            (* Got valid content *)
                            (Raised (LoopingCallDone c), st, [])
                        end
                    end
                end
            end
        end
      else retry (W_invalid_status (status_code response))
  end.

(** [_do_lookup] on the two lists, given as a [retry_state] value. *)
Definition _do_lookup (net : transport) (api_url : string) (k : nat)
    (hardware_info : json) (timeout : Z) (st : retry_state)
    : call_outcome * retry_state * list log_entry :=
  do_lookup_body (next_interval timeout) net api_url k hardware_info st.

(** ** The looping call *)

(** Modelled from the spec: DynamicLoopingCall, from
    ironic_python_agent/openstack/common/loopingcall.py, which is not among
    the sources. Spec section 4.2: the scheduler invokes the work function;
    when it signals completion (it raises LoopingCallDone, whose retvalue
    is the value, True by default) the loop stops with that value;
    otherwise the work function returned the next interval, the scheduler
    sleeps for it and invokes the work again. An exception other than
    LoopingCallDone ends the loop and is re-raised by [wait()].
    The work function receives the index of its invocation, which is the
    index of the request it sends. [fuel] bounds the number of
    invocations of the model only: the Python loop has no such bound. *)
Inductive loop_end : Type :=
| LoopDone (retvalue : json)
| LoopRaised (e : exc)
| LoopOutOfFuel.

Record loop_run (St : Type) : Type := mk_loop_run {
  run_end : loop_end;
  run_state : St;
  run_calls : nat;             (* invocations of the work function *)
  run_sleeps : list Z;         (* sleeps, in order *)
  run_log : list log_entry
}.
Arguments mk_loop_run {St}.
Arguments run_end {St}.
Arguments run_state {St}.
Arguments run_calls {St}.
Arguments run_sleeps {St}.
Arguments run_log {St}.

Section DynamicLoopingCall.
Context {St : Type}.
Variable f : nat -> St -> call_outcome * St * list log_entry.

Fixpoint dynamic_loop (fuel : nat) (k : nat) (s : St) (sleeps : list Z)
    (log : list log_entry) : loop_run St :=
  match fuel with
  | O => mk_loop_run LoopOutOfFuel s k sleeps log
  | S fuel' =>
      let '(o, s', w) := f k s in
      match o with
      | Returned idle => dynamic_loop fuel' (S k) s' (sleeps ++ [idle]) (log ++ w)
      | Raised (LoopingCallDone rv) => mk_loop_run (LoopDone rv) s' (S k) sleeps (log ++ w)
      | Raised e => mk_loop_run (LoopRaised e) s' (S k) sleeps (log ++ w)
      end
  end.

(** [timer.start().wait()]. *)
Definition loop_start_wait (fuel : nat) (s0 : St) : loop_run St :=
  dynamic_loop fuel O s0 [] [].
End DynamicLoopingCall.

(** ** lookup_node *)

(** What a call of the Python function ends with. *)
Inductive py_result (A : Type) : Type :=
| PyReturn (v : A)
| PyRaise (e : exc)
| PyNoAnswer.            (* the model ran out of fuel *)
Arguments PyReturn {A}.
Arguments PyRaise {A}.
Arguments PyNoAnswer {A}.

Definition lookup_error_msg : string :=
  "Could not look up node info. Check logs for details.".

(** The looping call run by [lookup_node]: fresh [intervals=[starting_interval]]
    and [total_time=[0]]. *)
Definition lookup_run (net : transport) (api_url : string) (fuel : nat)
    (hardware_info : json) (timeout starting_interval : Z) : loop_run retry_state :=
  loop_start_wait
    (fun k st => _do_lookup net api_url k hardware_info timeout st)
    fuel (mk_retry_state [starting_interval] 0).

(** What [lookup_node] does with the value of [timer.start().wait()]. *)
Definition lookup_result (e : loop_end) : py_result json :=
  match e with
  | LoopDone node_content =>
      (* True is returned on timeout *)
      if is_py_True node_content then PyRaise (LookupNodeError lookup_error_msg)
      else PyReturn node_content
  | LoopRaised e => PyRaise e
  | LoopOutOfFuel => PyNoAnswer
  end.

(** [lookup_node(hardware_info, timeout, starting_interval)]. *)
Definition lookup_node (net : transport) (api_url : string) (fuel : nat)
    (hardware_info : json) (timeout starting_interval : Z) : py_result json :=
  lookup_result (run_end (lookup_run net api_url fuel hardware_info timeout starting_interval)).

(** Sample networks. *)
Definition always (r : transport_result) : transport := fun _ _ => r.

Definition resp (code : Z) (body : option json) : transport_result :=
  Responded (mk_response code [] body).

Definition good_body : json :=
  JObj [("node", JObj [("uuid", JStr "abc")]); ("heartbeat_timeout", JNum 300)].

(** ** The lists of the retry state as heap objects *)

(** The part of the Python heap the lookup touches: list objects of
    numbers, the object at address [a] being [nth a h []]. *)
Definition heap := list (list Z).

Fixpoint list_set {A : Type} (l : list A) (n : nat) (x : A) : list A :=
  match l, n with
  | [], _ => []
  | _ :: l', O => x :: l'
  | y :: l', S n' => y :: list_set l' n' x
  end.

(** The default arguments of [_do_lookup], [intervals=[1]] and
    [total_time=[0]], evaluated once when the class body runs and shared by
    every call that omits them. *)
Definition class_heap : heap := [[1]; [0]].

(** [next_interval(timeout, intervals, total_time)] on the list objects at
    addresses [a_int] and [a_tot]. *)
Definition next_interval_h (timeout : Z) (a_int a_tot : nat) (h : heap)
    : call_outcome * heap :=
  match py_last (nth a_int h []) with
  | None => (Raised IndexError, h)
  | Some last =>
      let new_interval := last * 2 in
      match nth a_tot h [] with
      | [] => (Raised IndexError, h)
      | t0 :: rest =>
          if t0 + new_interval >? timeout then
            (Raised (LoopingCallDone py_True), h)
          else
            (* total_time[0] += new_interval; intervals.append(new_interval) *)
            let h1 := list_set h a_tot ((t0 + new_interval) :: rest) in
            let h2 := list_set h1 a_int (nth a_int h1 [] ++ [new_interval]) in
            (Returned new_interval, h2)
      end
  end.

(** [_do_lookup(hardware_info, timeout, intervals, total_time)] with
    [intervals] and [total_time] the list objects at [a_int] and [a_tot]. *)
Definition _do_lookup_h (net : transport) (api_url : string) (k : nat)
    (hardware_info : json) (timeout : Z) (a_int a_tot : nat) (h : heap)
    : call_outcome * heap * list log_entry :=
  do_lookup_body (next_interval_h timeout a_int a_tot) net api_url k hardware_info h.

(** [lookup_node] on the heap: the literals [[starting_interval]] and [[0]]
    allocate two new list objects, passed to every run of [_do_lookup]. *)
Definition lookup_node_h (net : transport) (api_url : string) (fuel : nat)
    (hardware_info : json) (timeout starting_interval : Z) (h : heap)
    : py_result json * heap :=
  let a_int := List.length h in
  let a_tot := S (List.length h) in
  let r := loop_start_wait
             (fun k h' => _do_lookup_h net api_url k hardware_info timeout a_int a_tot h')
             fuel (h ++ [[starting_interval]; [0]])%list in
  (lookup_result (run_end r), run_state r).

(** ** heartbeat *)

Definition digit_char (d : nat) : ascii := ascii_of_nat (48 + d).

Fixpoint uint_to_string (d : Decimal.uint) : string :=
  match d with
  | Decimal.Nil => ""
  | Decimal.D0 d' => String (digit_char 0) (uint_to_string d')
  | Decimal.D1 d' => String (digit_char 1) (uint_to_string d')
  | Decimal.D2 d' => String (digit_char 2) (uint_to_string d')
  | Decimal.D3 d' => String (digit_char 3) (uint_to_string d')
  | Decimal.D4 d' => String (digit_char 4) (uint_to_string d')
  | Decimal.D5 d' => String (digit_char 5) (uint_to_string d')
  | Decimal.D6 d' => String (digit_char 6) (uint_to_string d')
  | Decimal.D7 d' => String (digit_char 7) (uint_to_string d')
  | Decimal.D8 d' => String (digit_char 8) (uint_to_string d')
  | Decimal.D9 d' => String (digit_char 9) (uint_to_string d')
  end.

(** [str(n)] for an int. *)
Definition py_str_int (n : Z) : string :=
  match Z.to_int n with
  | Decimal.Pos u => uint_to_string u
  | Decimal.Neg u => String "-" (uint_to_string u)
  end.

(** [str(e)] for the exceptions the session raises. *)
Definition py_str_exc (e : exc) : string :=
  match e with
  | TransportError msg | LookupNodeError msg | HeartbeatError msg => msg
  | _ => ""
  end.

Definition ascii_lower (c : ascii) : ascii :=
  let n := nat_of_ascii c in
  if (65 <=? n)%nat && (n <=? 90)%nat then ascii_of_nat (n + 32) else c.

Fixpoint string_lower (s : string) : string :=
  match s with
  | EmptyString => EmptyString
  | String c s' => String (ascii_lower c) (string_lower s')
  end.

(** [response.headers[name]]: requests' case-insensitive dict; [None] is
    the KeyError. *)
Fixpoint header_get (hs : list (string * string)) (name : string) : option string :=
  match hs with
  | [] => None
  | (k, v) :: hs' =>
      if String.eqb (string_lower k) (string_lower name) then Some v
      else header_get hs' name
  end.

(** [_get_agent_url(advertise_address)] for a [(host, port)] pair. *)
Definition _get_agent_url (advertise_address : string * Z) : string :=
  String.append "http://"
    (String.append (fst advertise_address)
       (String.append ":" (py_str_int (snd advertise_address)))).

Definition heartbeat_path (uuid : string) : string :=
  String.append "/" (String.append api_version
    (String.append "/nodes/" (String.append uuid "/vendor_passthru/heartbeat"))).

(** [heartbeat(uuid, advertise_address)]. [py_float] is Python's [float]
    on a str: a number, or [None] when it raises ValueError. *)
Definition heartbeat (py_float : string -> option Q) (net : transport)
    (api_url uuid : string) (advertise_address : string * Z) : py_result Q :=
  let path := heartbeat_path uuid in
  let data := JObj [("agent_url", JStr (_get_agent_url advertise_address))] in
  match _request net O api_url "POST" path (Some data) with
  | TransportFailed e => PyRaise (HeartbeatError (py_str_exc e))
  | Responded response =>
      if negb (status_code response =? codes_NO_CONTENT) then
        PyRaise (HeartbeatError
                   (String.append "Invalid status code: " (py_str_int (status_code response))))
      else
        match header_get (headers response) "Heartbeat-Before" with
        | None => PyRaise (HeartbeatError "Missing Heartbeat-Before header")
        | Some v =>
            match py_float v with
            | None => PyRaise (HeartbeatError "Invalid Heartbeat-Before header")
            | Some q => PyReturn q
            end
        end
  end.

(** A parser of plain decimal literals ([digits] or [digits.digits]), on
    which it agrees with Python's [float]; used for concrete runs. *)
Definition digit_val (c : ascii) : option Z :=
  let n := nat_of_ascii c in
  if (48 <=? n)%nat && (n <=? 57)%nat then Some (Z.of_nat n - 48) else None.

Fixpoint parse_digits (s : string) (acc : Z) (len : nat) : option (Z * nat * string) :=
  match s with
  | String c s' =>
      match digit_val c with
      | Some d => parse_digits s' (acc * 10 + d) (S len)
      | None => Some (acc, len, s)
      end
  | EmptyString => Some (acc, len, EmptyString)
  end.

Definition decimal_float (s : string) : option Q :=
  match parse_digits s 0 O with
  | Some (i, S _, EmptyString) => Some (Qred (inject_Z i))
  | Some (i, S _, String "." rest) =>
      match parse_digits rest 0 O with
      | Some (f, S n, EmptyString) =>
          Some (Qred (Qplus (inject_Z i) (Qmake f (Pos.of_nat (Nat.pow 10 (S n))))))
      | _ => None
      end
  | _ => None
  end.

(** ** APIClient.__init__ *)

Fixpoint drop_slashes (l : list ascii) : list ascii :=
  match l with
  | "/"%char :: l' => drop_slashes l'
  | _ => l
  end.

(** [s.rstrip('/')]: every trailing slash removed. *)
Definition rstrip_slash (s : string) : string :=
  string_of_list_ascii (rev (drop_slashes (rev (list_ascii_of_string s)))).

(** [n] slashes. *)
Fixpoint slashes (n : nat) : string :=
  match n with O => EmptyString | S n' => String "/" (slashes n') end.

(** [APIClient(api_url)]: the [self.api_url] that [_request] prefixes to
    every path. *)
Definition APIClient_api_url (api_url : string) : string := rstrip_slash api_url.

(** [_do_lookup] called without [intervals] and [total_time]: it runs on
    the default lists, at addresses 0 and 1 of a heap that starts with
    [class_heap]. *)
Definition _do_lookup_defaults (net : transport) (api_url : string) (k : nat)
    (hardware_info : json) (timeout : Z) (h : heap)
    : call_outcome * heap * list log_entry :=
  _do_lookup_h net api_url k hardware_info timeout 0 1 h.

(** A service that never answers 200. *)
Definition never_OK (net : transport) : Prop :=
  forall k req r, net k req = Responded r -> status_code r <> codes_OK.

(** ** Facts about the looping call *)

Section LoopFacts.
Context {St : Type}.
Variable f : nat -> St -> call_outcome * St * list log_entry.

(** An invariant of the state and of the sleeps so far, kept by every
    invocation of the work function. *)
Variable P : St -> list Z -> Prop.
Hypothesis P_step : forall k s sl o s' w,
  P s sl -> f k s = (o, s', w) ->
  match o with Returned i => P s' (sl ++ [i]) | Raised _ => P s' sl end.

Lemma dynamic_loop_inv : forall fuel k s sl lg,
  P s sl ->
  P (run_state (dynamic_loop f fuel k s sl lg)) (run_sleeps (dynamic_loop f fuel k s sl lg)).
Proof.
  induction fuel as [|fuel IH]; intros k s sl lg Hp; simpl; [exact Hp|].
  destruct (f k s) as [[o s'] w] eqn:E.
  pose proof (P_step _ _ _ _ _ _ Hp E) as Hs.
  destruct o as [i|e]; [apply IH; exact Hs|].
  destruct e; simpl; exact Hs.
Qed.

(** How a run that did not run out of fuel ended: its last invocation,
    from a state satisfying the invariant, raised. *)
Lemma dynamic_loop_end : forall fuel k s sl lg,
  P s sl ->
  let r := dynamic_loop f fuel k s sl lg in
  match run_end r with
  | LoopOutOfFuel => True
  | LoopDone rv => exists s0 w, P s0 (run_sleeps r) /\
      f (pred (run_calls r)) s0 = (Raised (LoopingCallDone rv), run_state r, w)
  | LoopRaised e => (forall rv, e <> LoopingCallDone rv) /\ exists s0 w, P s0 (run_sleeps r) /\
      f (pred (run_calls r)) s0 = (Raised e, run_state r, w)
  end.
Proof.
  induction fuel as [|fuel IH]; intros k s sl lg Hp; simpl; [exact I|].
  destruct (f k s) as [[o s'] w] eqn:E.
  destruct o as [i|e].
  - apply IH. exact (P_step _ _ _ _ _ _ Hp E).
  - destruct e; simpl; try (split; [intros rv Hrv; discriminate Hrv|]);
      exists s, w; split; assumption.
Qed.
End LoopFacts.

Section LoopShape.
Context {St : Type}.
Variable f : nat -> St -> call_outcome * St * list log_entry.

Lemma dynamic_loop_calls : forall fuel k s sl lg,
  let r := dynamic_loop f fuel k s sl lg in
  (run_calls r + List.length sl
   = k + List.length (run_sleeps r)
     + match run_end r with LoopOutOfFuel => 0 | _ => 1 end)%nat.
Proof.
  induction fuel as [|fuel IH]; intros k s sl lg; simpl; [lia|].
  destruct (f k s) as [[o s'] w] eqn:E.
  destruct o as [i|e].
  - specialize (IH (S k) s' (sl ++ [i]) (lg ++ w)). simpl in IH.
    rewrite length_app in IH. simpl in IH. lia.
  - destruct e; simpl; lia.
Qed.

(** Once the loop has ended, more fuel changes nothing: no invocation
    follows the end. *)
Lemma dynamic_loop_more_fuel : forall fuel fuel' k s sl lg,
  run_end (dynamic_loop f fuel k s sl lg) <> LoopOutOfFuel ->
  (fuel <= fuel')%nat ->
  dynamic_loop f fuel' k s sl lg = dynamic_loop f fuel k s sl lg.
Proof.
  induction fuel as [|fuel IH]; intros fuel' k s sl lg Hend Hle;
    simpl in Hend; [congruence|].
  destruct fuel' as [|fuel']; [lia|]. simpl.
  destruct (f k s) as [[o s'] w] eqn:E.
  destruct o as [i|e].
  - apply IH; [exact Hend | lia].
  - reflexivity.
Qed.

(** A run with more fuel extends the sleeps of a run with less. *)
Lemma dynamic_loop_prefix : forall fuel fuel' k s sl lg,
  (fuel <= fuel')%nat ->
  exists ext, run_sleeps (dynamic_loop f fuel' k s sl lg)
              = run_sleeps (dynamic_loop f fuel k s sl lg) ++ ext.
Proof.
  induction fuel as [|fuel IH]; intros fuel' k s sl lg Hle.
  - simpl. clear Hle. revert k s sl lg. induction fuel' as [|fuel' IH']; intros k s sl lg.
    + exists []. rewrite app_nil_r. reflexivity.
    + simpl. destruct (f k s) as [[o s'] w].
      destruct o as [i|e].
      * destruct (IH' (S k) s' (sl ++ [i]) (lg ++ w)) as [ext Hext].
        exists ([i] ++ ext). rewrite Hext, app_assoc. reflexivity.
      * exists []. rewrite app_nil_r. destruct e; reflexivity.
  - destruct fuel' as [|fuel']; [lia|]. simpl.
    destruct (f k s) as [[o s'] w].
    destruct o as [i|e].
    + apply IH. lia.
    + exists []. rewrite app_nil_r. reflexivity.
Qed.
End LoopShape.

(** Two work functions that answer alike on related states give runs that
    end alike, with the same invocations, sleeps and log. *)
Section LoopSimulation.
Context {S1 S2 : Type}.
Variable f1 : nat -> S1 -> call_outcome * S1 * list log_entry.
Variable f2 : nat -> S2 -> call_outcome * S2 * list log_entry.
Variable R : S1 -> S2 -> Prop.
Hypothesis R_step : forall k s1 s2, R s1 s2 ->
  let '(o1, s1', w1) := f1 k s1 in
  let '(o2, s2', w2) := f2 k s2 in
  o1 = o2 /\ w1 = w2 /\ R s1' s2'.

Lemma dynamic_loop_sim : forall fuel k s1 s2 sl lg,
  R s1 s2 ->
  let r1 := dynamic_loop f1 fuel k s1 sl lg in
  let r2 := dynamic_loop f2 fuel k s2 sl lg in
  run_end r1 = run_end r2 /\ run_calls r1 = run_calls r2 /\
  run_sleeps r1 = run_sleeps r2 /\ run_log r1 = run_log r2 /\
  R (run_state r1) (run_state r2).
Proof.
  induction fuel as [|fuel IH]; intros k s1 s2 sl lg HR; simpl;
    [repeat split; assumption|].
  pose proof (R_step k s1 s2 HR) as Hs.
  destruct (f1 k s1) as [[o1 s1'] w1], (f2 k s2) as [[o2 s2'] w2].
  destruct Hs as [-> [-> HR']].
  destruct o2 as [i|e]; [apply IH; exact HR'|].
  destruct e; simpl; repeat split; assumption.
Qed.
End LoopSimulation.

(** ** Facts about _do_lookup *)

(** The request every run of [_do_lookup] sends. *)
Definition lookup_request (api_url : string) (hardware_info : json) : request :=
  mk_request "POST" (String.append api_url lookup_path)
             (Some (JObj [("hardware", hardware_info)])).

Lemma py_contains_error : forall k c e, py_contains k c = inl e -> e = TypeError.
Proof. intros k c e H; destruct c; simpl in H; congruence. Qed.

Lemma py_getitem_error : forall c k e,
  py_getitem c k = inl e -> e = TypeError \/ e = KeyError.
Proof.
  intros c k e H; destruct c; simpl in H; try (left; congruence).
  destruct (obj_get kv k); [discriminate | right; congruence].
Qed.

Lemma py_contains_not_True : forall k c, py_contains k c = inr true -> is_py_True c = false.
Proof. intros k c H; destruct c; simpl in *; congruence. Qed.

(** A run of [_do_lookup] either ends in [next_interval], or signals
    Done with the decoded body of a 200 response, or lets a TypeError or
    KeyError out; in the last two cases the two lists are untouched. *)
Lemma do_lookup_body_shape {St : Type} (next : St -> call_outcome * St) :
  forall net api_url k hw st o st' w,
  do_lookup_body next net api_url k hw st = (o, st', w) ->
  (o, st') = next st
  \/ (st' = st /\ exists r c, net k (lookup_request api_url hw) = Responded r /\
        status_code r = codes_OK /\ content r = Some c /\ is_py_True c = false /\
        o = Raised (LoopingCallDone c))
  \/ (st' = st /\ (o = Raised TypeError \/ o = Raised KeyError)).
Proof.
  intros net api_url k hw st o st' w H.
  unfold do_lookup_body, _request in H. fold (lookup_request api_url hw) in H.
  destruct (net k (lookup_request api_url hw)) as [e|r] eqn:En.
  - left. destruct (next st). inversion H; reflexivity.
  - destruct (status_code r =? codes_OK) eqn:Es;
      [|left; destruct (next st); inversion H; reflexivity].
    destruct (content r) as [c|] eqn:Ec;
      [|left; destruct (next st); inversion H; reflexivity].
    destruct (py_contains "node" c) as [e|[|]] eqn:Hn.
    + apply py_contains_error in Hn; subst. inversion H; subst. right; right; auto.
    + destruct (py_getitem c "node") as [e|n] eqn:Hg.
      * apply py_getitem_error in Hg. inversion H; subst. right; right.
        destruct Hg as [-> | ->]; auto.
      * destruct (py_contains "uuid" n) as [e|[|]] eqn:Hu.
        -- apply py_contains_error in Hu; subst. inversion H; subst. right; right; auto.
        -- destruct (py_contains "heartbeat_timeout" c) as [e|[|]] eqn:Hh.
           ++ apply py_contains_error in Hh; subst. inversion H; subst. right; right; auto.
           ++ inversion H; subst. right; left. split; [reflexivity|].
              exists r, c. repeat split; auto.
              ** apply Z.eqb_eq; exact Es.
              ** exact (py_contains_not_True _ _ Hn).
           ++ left; destruct (next st); inversion H; reflexivity.
        -- left; destruct (next st); inversion H; reflexivity.
    + left; destruct (next st); inversion H; reflexivity.
Qed.

Lemma next_interval_cases : forall timeout st o st',
  next_interval timeout st = (o, st') ->
  (py_last (intervals st) = None /\ o = Raised IndexError /\ st' = st)
  \/ exists l, py_last (intervals st) = Some l /\
     ((total_time st + l * 2 > timeout /\ o = Raised (LoopingCallDone py_True) /\ st' = st)
      \/ (total_time st + l * 2 <= timeout /\ o = Returned (l * 2) /\
          st' = mk_retry_state (intervals st ++ [l * 2]) (total_time st + l * 2))).
Proof.
  intros timeout st o st' H. unfold next_interval in H.
  destruct (py_last (intervals st)) as [l|] eqn:El.
  - right. exists l. split; [reflexivity|].
    destruct (total_time st + l * 2 >? timeout) eqn:Et.
    + left. rewrite Z.gtb_ltb, Z.ltb_lt in Et. inversion H; subst. repeat split; lia.
    + right. rewrite Z.gtb_ltb, Z.ltb_ge in Et. inversion H; subst. repeat split; lia.
  - left. inversion H; subst. auto.
Qed.

(** ** The shape of the retry state *)

(** [[s, 2s, 4s, ..., s * 2^(n-1)]]. *)
Definition pows (s : Z) (n : nat) : list Z :=
  map (fun i => s * 2 ^ Z.of_nat i) (seq 0 n).

Definition sum_Z (l : list Z) : Z := fold_right Z.add 0 l.

(** Every cumulative sum of the first [n >= 1] sleeps is within [timeout]. *)
Definition prefix_bounded (timeout : Z) (sl : list Z) : Prop :=
  forall n, (1 <= n <= List.length sl)%nat -> sum_Z (firstn n sl) <= timeout.

Lemma pows_S : forall s n, pows s (S n) = pows s n ++ [s * 2 ^ Z.of_nat n].
Proof. intros s n. unfold pows. rewrite seq_S, map_app. reflexivity. Qed.

Lemma length_pows : forall s n, List.length (pows s n) = n.
Proof. intros s n. unfold pows. rewrite length_map, length_seq. reflexivity. Qed.

Lemma py_last_app : forall l x, py_last (l ++ [x]) = Some x.
Proof. intros l x. unfold py_last. rewrite rev_app_distr. reflexivity. Qed.

Lemma sum_Z_app : forall l1 l2, sum_Z (l1 ++ l2) = sum_Z l1 + sum_Z l2.
Proof. intros l1 l2. induction l1 as [|x l1 IH]; simpl; [reflexivity|]. unfold sum_Z in *; simpl. lia. Qed.

Lemma prefix_bounded_snoc : forall timeout sl x,
  prefix_bounded timeout sl -> sum_Z sl + x <= timeout ->
  prefix_bounded timeout (sl ++ [x]).
Proof.
  intros timeout sl x Hp Hx n Hn. rewrite length_app in Hn; simpl in Hn.
  destruct (Nat.le_gt_cases n (List.length sl)) as [Hle|Hgt].
  - rewrite firstn_app. replace (n - List.length sl)%nat with 0%nat by lia.
    rewrite app_nil_r. apply Hp. lia.
  - rewrite firstn_all2 by (rewrite length_app; simpl; lia).
    rewrite sum_Z_app. simpl. lia.
Qed.

(** The invariant of the run of [lookup_node]: the intervals are the seed
    followed by the sleeps, [s, 2s, 4s, ...]; [total_time] is the sum of
    the sleeps, and every cumulative sum of them is within [timeout]. *)
Definition lookup_inv (timeout s : Z) (st : retry_state) (sl : list Z) : Prop :=
  intervals st = s :: sl /\
  s :: sl = pows s (S (List.length sl)) /\
  total_time st = sum_Z sl /\
  prefix_bounded timeout sl.

Lemma lookup_inv_init : forall timeout s,
  lookup_inv timeout s (mk_retry_state [s] 0) [].
Proof.
  intros timeout s. unfold lookup_inv, pows. simpl. repeat split.
  - f_equal. lia.
  - intros n Hn. simpl in Hn. lia.
Qed.

Lemma lookup_inv_last : forall timeout s st sl,
  lookup_inv timeout s st sl ->
  py_last (intervals st) = Some (s * 2 ^ Z.of_nat (List.length sl)).
Proof.
  intros timeout s st sl [Hi [Hp _]]. rewrite Hi, Hp, pows_S. apply py_last_app.
Qed.

Lemma lookup_inv_step : forall net api_url hw timeout s k st sl o st' w,
  lookup_inv timeout s st sl ->
  _do_lookup net api_url k hw timeout st = (o, st', w) ->
  match o with
  | Returned i => lookup_inv timeout s st' (sl ++ [i])
  | Raised _ => lookup_inv timeout s st' sl
  end.
Proof.
  intros net api_url hw timeout s k st sl o st' w Hinv H.
  apply do_lookup_body_shape in H.
  destruct H as [H | [[-> [r [c [_ [_ [_ [_ ->]]]]]]] | [-> [-> | ->]]]]; try exact Hinv.
  symmetry in H. apply next_interval_cases in H.
  rewrite (lookup_inv_last _ _ _ _ Hinv) in H.
  destruct H as [[Hn _] | [l [Hl [[_ [-> ->]] | [Hle [-> ->]]]]]]; [discriminate | exact Hinv |].
  injection Hl as <-.
  destruct Hinv as [Hi [Hp [Ht Hb]]].
  unfold lookup_inv; simpl. rewrite Hi.
  repeat split.
  - rewrite length_app. simpl. rewrite Nat.add_1_r, pows_S, <- Hp.
    rewrite Nat2Z.inj_succ, Z.pow_succ_r by lia.
    cbn [app]. do 3 f_equal. ring.
  - rewrite sum_Z_app, Ht. simpl. lia.
  - apply prefix_bounded_snoc; [exact Hb | lia].
Qed.

(** ** Facts about the run of lookup_node *)

Lemma lookup_run_inv : forall net api_url fuel hw timeout s,
  let r := lookup_run net api_url fuel hw timeout s in
  lookup_inv timeout s (run_state r) (run_sleeps r).
Proof.
  intros. unfold r, lookup_run, loop_start_wait.
  apply dynamic_loop_inv; [|apply lookup_inv_init].
  intros k st sl o st' w Hinv H. exact (lookup_inv_step _ _ _ _ _ _ _ _ _ _ _ Hinv H).
Qed.

Lemma is_py_True_spec : forall x, is_py_True x = true <-> x = py_True.
Proof. intros x; unfold py_True; destruct x as [| [|] | | | |]; simpl; split; congruence. Qed.

(** A run ends because the deadline check failed (value True), because a
    200 response carried an accepted body (the value is that body), or
    because a TypeError or KeyError escaped [_do_lookup]. *)
Lemma lookup_run_end_cases : forall net api_url fuel hw timeout s,
  let r := lookup_run net api_url fuel hw timeout s in
  match run_end r with
  | LoopOutOfFuel => True
  | LoopDone rv =>
      (rv = py_True /\
       total_time (run_state r) + s * 2 ^ Z.of_nat (List.length (run_sleeps r)) * 2 > timeout)
      \/ (is_py_True rv = false /\ exists resp,
            net (pred (run_calls r)) (lookup_request api_url hw) = Responded resp /\
            status_code resp = codes_OK /\ content resp = Some rv)
  | LoopRaised e => e = TypeError \/ e = KeyError
  end.
Proof.
  intros. unfold r, lookup_run, loop_start_wait.
  pose proof (dynamic_loop_end
    (fun k st => _do_lookup net api_url k hw timeout st) (lookup_inv timeout s)
    (fun k st sl o st' w Hinv H => lookup_inv_step _ _ _ _ _ _ _ _ _ _ _ Hinv H)
    fuel O (mk_retry_state [s] 0) [] [] (lookup_inv_init timeout s)) as Hend.
  cbv zeta in Hend.
  set (run := dynamic_loop _ fuel O (mk_retry_state [s] 0) [] []) in *.
  destruct (run_end run) as [rv|e|]; [| |exact I].
  - destruct Hend as [s0 [w [Hinv H]]].
    apply do_lookup_body_shape in H.
    destruct H as [H | [[Hst [resp [c [Hn [Hs [Hc [Ht Ho]]]]]]] | [_ [Ho | Ho]]]];
      [| | discriminate | discriminate].
    + left. symmetry in H. apply next_interval_cases in H.
      rewrite (lookup_inv_last _ _ _ _ Hinv) in H.
      destruct H as [[Hn _] | [l [Hl [[Ht [Ho ->]] | [_ [Ho _]]]]]];
        [discriminate | | discriminate].
      injection Ho as ->. injection Hl as <-. split; [reflexivity | exact Ht].
    + right. injection Ho as <-. split; [exact Ht|]. exists resp. auto.
  - destruct Hend as [Hne [s0 [w [Hinv H]]]].
    apply do_lookup_body_shape in H.
    destruct H as [H | [[_ [resp [c [_ [_ [_ [_ Ho]]]]]]] | [_ [Ho | Ho]]]].
    + symmetry in H. apply next_interval_cases in H.
      rewrite (lookup_inv_last _ _ _ _ Hinv) in H.
      destruct H as [[Hn _] | [l [_ [[_ [Ho _]] | [_ [Ho _]]]]]];
        [discriminate | | discriminate].
      injection Ho as ->. exfalso. exact (Hne _ eq_refl).
    + injection Ho as ->. exfalso. exact (Hne _ eq_refl).
    + injection Ho as ->. auto.
    + injection Ho as ->. auto.
Qed.

Lemma nth_pows : forall s n i, (i < n)%nat -> nth i (pows s n) 0 = s * 2 ^ Z.of_nat i.
Proof.
  intros s n i Hi. unfold pows.
  pose proof (map_nth (fun j => s * 2 ^ Z.of_nat j) (seq 0 n) O i) as H.
  cbv beta in H. rewrite seq_nth in H by exact Hi. simpl in H. rewrite <- H.
  apply nth_indep. rewrite length_map, length_seq. exact Hi.
Qed.

Lemma pows_pos : forall s n x, 0 < s -> In x (pows s n) -> 0 < x.
Proof.
  intros s n x Hs Hx. unfold pows in Hx. apply in_map_iff in Hx.
  destruct Hx as [i [<- _]]. apply Z.mul_pos_pos; [exact Hs|].
  apply Z.pow_pos_nonneg; lia.
Qed.

Lemma sum_Z_nonneg : forall l, (forall x, In x l -> 0 < x) -> 0 <= sum_Z l.
Proof.
  induction l as [|x l IH]; intros H; simpl; [lia|].
  unfold sum_Z in *; simpl.
  assert (0 < x) by (apply H; left; reflexivity).
  assert (0 <= fold_right Z.add 0 l) by (apply IH; intros y Hy; apply H; right; exact Hy).
  lia.
Qed.

Lemma lookup_run_calls : forall net api_url fuel hw timeout s,
  let r := lookup_run net api_url fuel hw timeout s in
  run_calls r = (List.length (run_sleeps r)
                 + match run_end r with LoopOutOfFuel => 0 | _ => 1 end)%nat.
Proof.
  intros. unfold r, lookup_run, loop_start_wait.
  pose proof (dynamic_loop_calls (fun k st => _do_lookup net api_url k hw timeout st)
                fuel O (mk_retry_state [s] 0) [] []) as H.
  cbv zeta in H. simpl List.length in H. lia.
Qed.

Lemma lookup_run_prefix : forall net api_url fuel fuel' hw timeout s,
  (fuel <= fuel')%nat ->
  exists ext, run_sleeps (lookup_run net api_url fuel' hw timeout s)
              = run_sleeps (lookup_run net api_url fuel hw timeout s) ++ ext.
Proof.
  intros. unfold lookup_run, loop_start_wait. apply dynamic_loop_prefix. exact H.
Qed.

Lemma lookup_run_sleep_nth : forall net api_url fuel hw timeout s i,
  let sl := run_sleeps (lookup_run net api_url fuel hw timeout s) in
  (i < List.length sl)%nat -> nth i sl 0 = s * 2 ^ Z.of_nat (S i).
Proof.
  intros net api_url fuel hw timeout s i sl Hi.
  destruct (lookup_run_inv net api_url fuel hw timeout s) as [_ [Hp _]].
  fold sl in Hp.
  change (nth i sl 0) with (nth (S i) (s :: sl) 0). rewrite Hp.
  apply nth_pows. lia.
Qed.

(** * The claims *)

(** C1 (timeout respected). Before every invocation of the work unit
    after the first, the cumulative counted time (the sum of the sleeps so
    far) is within [timeout]; each sleep is followed by exactly one
    invocation; the deadline check [total_time + next_interval > timeout]
    stops the loop with the no-value outcome (True), and [lookup_node]
    raises LookupNodeError exactly when the loop ended so. *)
Theorem C1_timeout_respected : forall net api_url fuel hw timeout s,
  let r := lookup_run net api_url fuel hw timeout s in
  prefix_bounded timeout (run_sleeps r) /\
  (run_end r <> LoopOutOfFuel -> run_calls r = S (List.length (run_sleeps r))) /\
  (forall st l, py_last (intervals st) = Some l -> total_time st + l * 2 > timeout ->
     next_interval timeout st = (Raised (LoopingCallDone py_True), st)) /\
  (run_end r = LoopDone py_True ->
     total_time (run_state r) + s * 2 ^ Z.of_nat (List.length (run_sleeps r)) * 2 > timeout) /\
  (lookup_node net api_url fuel hw timeout s = PyRaise (LookupNodeError lookup_error_msg)
     <-> run_end r = LoopDone py_True).
Proof.
  intros net api_url fuel hw timeout s r.
  pose proof (lookup_run_inv net api_url fuel hw timeout s) as [_ [_ [_ Hb]]].
  pose proof (lookup_run_calls net api_url fuel hw timeout s) as Hcalls.
  pose proof (lookup_run_end_cases net api_url fuel hw timeout s) as Hend.
  cbv zeta in Hcalls, Hend. fold r in Hb, Hcalls, Hend.
  split; [exact Hb|]. split; [|split; [|split]].
  - intros Hne. rewrite Hcalls. destruct (run_end r); [lia | lia | congruence].
  - intros st l Hl Ht. unfold next_interval. rewrite Hl.
    replace (total_time st + l * 2 >? timeout) with true
      by (symmetry; rewrite Z.gtb_ltb, Z.ltb_lt; lia).
    reflexivity.
  - intros Hd. rewrite Hd in Hend.
    destruct Hend as [[_ Ht] | [Hf _]]; [exact Ht | discriminate Hf].
  - unfold lookup_node. fold r.
    destruct (run_end r) as [rv|e|]; simpl.
    + destruct (is_py_True rv) eqn:E.
      * apply is_py_True_spec in E. subst rv. split; reflexivity.
      * split; intro H; [discriminate H|]. injection H as ->. discriminate E.
    + split; intro H; [|discriminate H]. injection H as ->.
      destruct Hend; discriminate.
    + split; intro H; discriminate H.
Qed.

(** C4 (backoff doubling). The intervals held in the retry state are
    [s, 2s, 4s, ...]: the N-th retry sleeps [s * 2^N]; for a positive
    [s] each interval is twice the previous one and larger than it, and
    the cumulative counted time never decreases from one step of the
    scheduler to a later one. *)
Theorem C4_backoff_doubling : forall net api_url fuel hw timeout s,
  let r := lookup_run net api_url fuel hw timeout s in
  let ints := intervals (run_state r) in
  ints = pows s (S (List.length (run_sleeps r))) /\
  (forall N, (1 <= N <= List.length (run_sleeps r))%nat ->
     nth (N - 1) (run_sleeps r) 0 = s * 2 ^ Z.of_nat N) /\
  (0 < s -> forall i, (S i < List.length ints)%nat ->
     nth (S i) ints 0 = 2 * nth i ints 0 /\ nth i ints 0 < nth (S i) ints 0) /\
  (0 < s -> forall fuel', (fuel <= fuel')%nat ->
     total_time (run_state r)
     <= total_time (run_state (lookup_run net api_url fuel' hw timeout s))).
Proof.
  intros net api_url fuel hw timeout s r ints.
  pose proof (lookup_run_inv net api_url fuel hw timeout s) as [Hi [Hp [Ht _]]].
  fold r in Hi, Hp, Ht.
  assert (Hints : ints = pows s (S (List.length (run_sleeps r)))) by (unfold ints; rewrite Hi; exact Hp).
  split; [exact Hints|]. split; [|split].
  - intros N HN. destruct N as [|N]; [lia|].
    rewrite Nat.sub_succ, Nat.sub_0_r.
    apply (lookup_run_sleep_nth net api_url fuel hw timeout s N). unfold r in HN. lia.
  - intros Hs i Hlt. rewrite Hints in *. rewrite length_pows in Hlt.
    rewrite !nth_pows by lia.
    rewrite Nat2Z.inj_succ, Z.pow_succ_r by lia.
    assert (0 < 2 ^ Z.of_nat i) by (apply Z.pow_pos_nonneg; lia).
    split; [ring | nia].
  - intros Hs fuel' Hle. unfold r in *.
    destruct (lookup_run_prefix net api_url fuel fuel' hw timeout s Hle) as [ext Hext].
    pose proof (lookup_run_inv net api_url fuel' hw timeout s) as [_ [Hp' [Ht' _]]].
    cbv zeta in Hp', Ht'. rewrite Ht', Ht, Hext, sum_Z_app.
    assert (0 <= sum_Z ext); [|lia].
    apply sum_Z_nonneg. intros x Hx. apply (pows_pos s (S (List.length
      (run_sleeps (lookup_run net api_url fuel' hw timeout s)))) x Hs).
    rewrite <- Hp'. right. rewrite Hext. apply in_or_app. right. exact Hx.
Qed.

(** C5 (success short-circuits). When the loop ends with a value other
    than the no-value signal True, that value is the decoded body of the
    200 response to the last request, [lookup_node] returns it as it is,
    and no fuel, however large, adds an invocation: the run is the same. *)
Theorem C5_success_short_circuits : forall net api_url fuel hw timeout s v,
  run_end (lookup_run net api_url fuel hw timeout s) = LoopDone v ->
  v <> py_True ->
  lookup_node net api_url fuel hw timeout s = PyReturn v /\
  (forall fuel', (fuel <= fuel')%nat ->
     lookup_run net api_url fuel' hw timeout s = lookup_run net api_url fuel hw timeout s) /\
  exists resp,
    net (pred (run_calls (lookup_run net api_url fuel hw timeout s)))
        (lookup_request api_url hw) = Responded resp /\
    status_code resp = codes_OK /\ content resp = Some v.
Proof.
  intros net api_url fuel hw timeout s v Hd Hv.
  pose proof (lookup_run_end_cases net api_url fuel hw timeout s) as Hend.
  cbv zeta in Hend. rewrite Hd in Hend.
  destruct Hend as [[Heq _] | [Hf Hresp]]; [contradiction|].
  split; [|split; [|exact Hresp]].
  - unfold lookup_node. rewrite Hd. simpl. rewrite Hf. reflexivity.
  - intros fuel' Hle. unfold lookup_run, loop_start_wait.
    apply dynamic_loop_more_fuel; [|exact Hle].
    change (run_end (lookup_run net api_url fuel hw timeout s) <> LoopOutOfFuel).
    rewrite Hd. discriminate.
Qed.

Lemma C5_witness :
  run_end (lookup_run (always (resp 200 (Some good_body))) "http://ironic" 1 JNull 60 1)
    = LoopDone good_body /\
  good_body <> py_True /\
  (lookup_node (always (resp 200 (Some good_body))) "http://ironic" 1 JNull 60 1
     = PyReturn good_body /\
   (forall fuel', (1 <= fuel')%nat ->
      lookup_run (always (resp 200 (Some good_body))) "http://ironic" fuel' JNull 60 1
      = lookup_run (always (resp 200 (Some good_body))) "http://ironic" 1 JNull 60 1) /\
   exists r,
     always (resp 200 (Some good_body))
       (pred (run_calls (lookup_run (always (resp 200 (Some good_body))) "http://ironic" 1 JNull 60 1)))
       (lookup_request "http://ironic" JNull) = Responded r /\
     status_code r = codes_OK /\ content r = Some good_body).
Proof.
  split; [reflexivity|]. split; [discriminate|].
  apply (C5_success_short_circuits (always (resp 200 (Some good_body))) "http://ironic" 1 JNull 60 1
           good_body); [reflexivity | discriminate].
Defined.

(** C9 (what the cumulative time counts). After any number of scheduler
    steps, the intervals are the seed followed by the sleeps, the seed
    never being slept; [total_time] is the sum of the sleeps only (the
    time of the requests is not counted); the sleeps are the doubled
    intervals [2s, 4s, ...]; every sleep is followed by one invocation. *)
Theorem C9_total_counts_backoff_only : forall net api_url fuel hw timeout s,
  let r := lookup_run net api_url fuel hw timeout s in
  intervals (run_state r) = s :: run_sleeps r /\
  total_time (run_state r) = sum_Z (run_sleeps r) /\
  (forall i, (i < List.length (run_sleeps r))%nat ->
     nth i (run_sleeps r) 0 = 2 * s * 2 ^ Z.of_nat i) /\
  run_calls r = (List.length (run_sleeps r)
                 + match run_end r with LoopOutOfFuel => 0 | _ => 1 end)%nat.
Proof.
  intros net api_url fuel hw timeout s r.
  pose proof (lookup_run_inv net api_url fuel hw timeout s) as [Hi [_ [Ht _]]].
  split; [exact Hi|]. split; [exact Ht|]. split.
  - intros i Hlt. unfold r in *.
    rewrite (lookup_run_sleep_nth net api_url fuel hw timeout s i Hlt).
    rewrite Nat2Z.inj_succ, Z.pow_succ_r by lia. ring.
  - exact (lookup_run_calls net api_url fuel hw timeout s).
Qed.

(** C10 (inclusive budget). The deadline check stops the loop exactly
    when [total_time + next] is strictly above [timeout]; when it equals
    [timeout], the interval is appended, counted and returned as the next
    sleep, and the work unit runs again: with [starting_interval = 1] and
    [timeout = 2] against a failing service, two requests are sent and the
    counted time reaches 2. *)
Theorem C10_inclusive_budget : forall timeout st l,
  py_last (intervals st) = Some l ->
  (next_interval timeout st = (Raised (LoopingCallDone py_True), st)
     <-> total_time st + l * 2 > timeout) /\
  (total_time st + l * 2 = timeout ->
     next_interval timeout st
     = (Returned (l * 2), mk_retry_state (intervals st ++ [l * 2]) timeout)) /\
  (let r := lookup_run (always (resp 500 None)) "http://ironic" 10 JNull 2 1 in
   run_calls r = 2%nat /\ run_sleeps r = [2] /\ total_time (run_state r) = 2).
Proof.
  intros timeout st l Hl. split; [|split].
  - unfold next_interval. rewrite Hl. cbv zeta.
    destruct (total_time st + l * 2 >? timeout) eqn:E.
    + rewrite Z.gtb_ltb, Z.ltb_lt in E. split; [lia | reflexivity].
    + rewrite Z.gtb_ltb, Z.ltb_ge in E. split; [intro H; discriminate H | lia].
  - intros Heq. unfold next_interval. rewrite Hl. cbv zeta.
    replace (total_time st + l * 2 >? timeout) with false
      by (symmetry; rewrite Z.gtb_ltb, Z.ltb_ge; lia).
    rewrite Heq. reflexivity.
  - vm_compute. repeat split.
Qed.

Lemma C10_witness :
  py_last (intervals (mk_retry_state [1; 2] 2)) = Some 2 /\
  ((next_interval 6 (mk_retry_state [1; 2] 2) = (Raised (LoopingCallDone py_True), mk_retry_state [1; 2] 2)
      <-> total_time (mk_retry_state [1; 2] 2) + 2 * 2 > 6) /\
   (total_time (mk_retry_state [1; 2] 2) + 2 * 2 = 6 ->
      next_interval 6 (mk_retry_state [1; 2] 2)
      = (Returned (2 * 2), mk_retry_state (intervals (mk_retry_state [1; 2] 2) ++ [2 * 2]) 6)) /\
   (let r := lookup_run (always (resp 500 None)) "http://ironic" 10 JNull 2 1 in
    run_calls r = 2%nat /\ run_sleeps r = [2] /\ total_time (run_state r) = 2)).
Proof.
  split; [reflexivity|].
  apply (C10_inclusive_budget 6 (mk_retry_state [1; 2] 2) 2). reflexivity.
Defined.

(** A response with a status other than 200 leads to [next_interval]. *)
Lemma do_lookup_failed_status : forall net api_url k hw timeout st r,
  net k (lookup_request api_url hw) = Responded r ->
  status_code r <> codes_OK ->
  _do_lookup net api_url k hw timeout st
  = (fst (next_interval timeout st), snd (next_interval timeout st),
     [W_invalid_status (status_code r)]).
Proof.
  intros net api_url k hw timeout st r Hn Hs.
  unfold _do_lookup, do_lookup_body, _request. fold (lookup_request api_url hw).
  rewrite Hn. apply Z.eqb_neq in Hs. rewrite Hs.
  destruct (next_interval timeout st). reflexivity.
Qed.

(** C2 as the spec states it: the counted time would be 1 after the first
    attempt and 3 after the second. The code counts 2 after the first
    attempt (the first sleep is 2, the seed 1 is not slept) and still 2
    after the second, whose check (2 + 4 = 6 > 3) stops the loop. *)
Lemma C2_scenario_B_counter :
  ~ (total_time (run_state (lookup_run (always (resp 500 None)) "http://ironic" 1 JNull 3 1)) = 1 /\
     total_time (run_state (lookup_run (always (resp 500 None)) "http://ironic" 2 JNull 3 1)) = 3).
Proof. vm_compute. intros [H _]. discriminate H. Qed.

(** C2 (scenario B, amended). Against a service answering 500 to every
    request, with [starting_interval = 1] and [timeout = 3]: the first
    failure leads to a sleep of 2 (counted time 2); the second failure's
    check finds 2 + 4 = 6 > 3 and stops the loop; [lookup_node] raises
    LookupNodeError after exactly 2 requests. *)
Theorem C2_scenario_B_amended : forall net api_url hw fuel,
  (forall k req, exists r, net k req = Responded r /\ status_code r = 500) ->
  (2 <= fuel)%nat ->
  let r := lookup_run net api_url fuel hw 3 1 in
  run_calls r = 2%nat /\ run_sleeps r = [2] /\ intervals (run_state r) = [1; 2] /\
  total_time (run_state r) = 2 /\ total_time (run_state r) + 2 * 2 > 3 /\
  lookup_node net api_url fuel hw 3 1 = PyRaise (LookupNodeError lookup_error_msg).
Proof.
  intros net api_url hw fuel Hnet Hfuel.
  destruct fuel as [|[|fuel]]; [lia | lia |].
  destruct (Hnet O (lookup_request api_url hw)) as [r0 [E0 S0]].
  destruct (Hnet 1%nat (lookup_request api_url hw)) as [r1 [E1 S1]].
  assert (Hrun : lookup_run net api_url (S (S fuel)) hw 3 1
                 = mk_loop_run (LoopDone py_True) (mk_retry_state [1; 2] 2) 2%nat [2]
                     [W_invalid_status (status_code r0); W_invalid_status (status_code r1)]).
  { unfold lookup_run, loop_start_wait. cbn [dynamic_loop].
    rewrite (do_lookup_failed_status _ _ _ _ _ _ _ E0) by (rewrite S0; discriminate).
    cbv [next_interval py_last rev intervals total_time app fst snd].
    rewrite (do_lookup_failed_status _ _ _ _ _ _ _ E1) by (rewrite S1; discriminate).
    reflexivity. }
  cbv zeta. unfold lookup_node. rewrite Hrun. repeat split; reflexivity.
Qed.

Lemma C2_witness :
  (forall k req, exists r, always (resp 500 None) k req = Responded r /\ status_code r = 500) /\
  (2 <= 2)%nat /\
  (let r := lookup_run (always (resp 500 None)) "http://ironic" 2 JNull 3 1 in
   run_calls r = 2%nat /\ run_sleeps r = [2] /\ intervals (run_state r) = [1; 2] /\
   total_time (run_state r) = 2 /\ total_time (run_state r) + 2 * 2 > 3 /\
   lookup_node (always (resp 500 None)) "http://ironic" 2 JNull 3 1
   = PyRaise (LookupNodeError lookup_error_msg)).
Proof.
  assert (H : forall k req, exists r, always (resp 500 None) k req = Responded r /\ status_code r = 500)
    by (intros k req; eexists; split; reflexivity).
  split; [exact H|]. split; [lia|].
  apply (C2_scenario_B_amended (always (resp 500 None)) "http://ironic" JNull 2 H). lia.
Defined.

(** C3 (failures never escape the loop body), evaluated where it fails: a
    200 response whose body decodes to a JSON number makes
    ['node' not in content] raise TypeError, which leaves [_do_lookup]
    instead of becoming a retry, ends the looping call and is raised by
    [lookup_node]. *)
Theorem C3_non_object_body_escapes :
  (forall api_url k hw timeout st,
     _do_lookup (always (resp 200 (Some (JNum 5)))) api_url k hw timeout st
     = (Raised TypeError, st, [])) /\
  lookup_node (always (resp 200 (Some (JNum 5)))) "http://ironic" 10 JNull 60 1
  = PyRaise TypeError.
Proof.
  split; [|vm_compute; reflexivity].
  intros api_url k hw timeout st. reflexivity.
Qed.

Definition string_node_body : json :=
  JObj [("node", JStr "uuid"); ("heartbeat_timeout", JNum 300)].

(** C6 (a body without node.uuid is never a success), evaluated where it
    fails: in [{"node": "uuid", "heartbeat_timeout": 300}] the node is a
    string, without a uuid field, but ['uuid' in content['node']] is a
    substring test that holds, so the 200 response is accepted and
    [lookup_node] returns this body. *)
Theorem C6_string_node_accepted :
  (forall api_url k hw timeout st,
     _do_lookup (always (resp 200 (Some string_node_body))) api_url k hw timeout st
     = (Raised (LoopingCallDone string_node_body), st, [])) /\
  lookup_node (always (resp 200 (Some string_node_body))) "http://ironic" 10 JNull 60 1
  = PyReturn string_node_body.
Proof.
  split; [|vm_compute; reflexivity].
  intros api_url k hw timeout st. reflexivity.
Qed.

(** ** heartbeat *)

Definition heartbeat_request (api_url uuid : string) (advertise_address : string * Z) : request :=
  mk_request "POST" (String.append api_url (heartbeat_path uuid))
    (Some (JObj [("agent_url", JStr (_get_agent_url advertise_address))])).

(** C7 (heartbeat). For every implementation of [float]: [heartbeat]
    returns a number exactly when the request succeeds with status 204 and
    a Heartbeat-Before header that [float] parses, and returns what
    [float] gives; a transport failure, another status, a missing header
    and an unparsable header raise HeartbeatError, the last two with the
    "Missing" and "Invalid" messages; only the answer to the one request
    matters (no retry). With the decimal parser, "10.5" gives 10.5 and
    "notanumber" the invalid-header error. *)
Theorem C7_heartbeat_header : forall (py_float : string -> option Q) net api_url uuid addr,
  let req := heartbeat_request api_url uuid addr in
  let hb := heartbeat py_float net api_url uuid addr in
  (forall q, hb = PyReturn q <->
     exists r v, net O req = Responded r /\ status_code r = codes_NO_CONTENT /\
       header_get (headers r) "Heartbeat-Before" = Some v /\ py_float v = Some q) /\
  (forall e, net O req = TransportFailed e -> hb = PyRaise (HeartbeatError (py_str_exc e))) /\
  (forall r, net O req = Responded r -> status_code r <> codes_NO_CONTENT ->
     exists msg, hb = PyRaise (HeartbeatError msg)) /\
  (forall r, net O req = Responded r -> status_code r = codes_NO_CONTENT ->
     header_get (headers r) "Heartbeat-Before" = None ->
     hb = PyRaise (HeartbeatError "Missing Heartbeat-Before header")) /\
  (forall r v, net O req = Responded r -> status_code r = codes_NO_CONTENT ->
     header_get (headers r) "Heartbeat-Before" = Some v -> py_float v = None ->
     hb = PyRaise (HeartbeatError "Invalid Heartbeat-Before header")) /\
  (forall net', net' O = net O -> heartbeat py_float net' api_url uuid addr = hb) /\
  (forall b, net O req = Responded (mk_response 204 [("Heartbeat-Before", "10.5")] b) ->
     heartbeat decimal_float net api_url uuid addr = PyReturn (21 # 2)) /\
  (forall b, net O req = Responded (mk_response 204 [("Heartbeat-Before", "notanumber")] b) ->
     heartbeat decimal_float net api_url uuid addr
     = PyRaise (HeartbeatError "Invalid Heartbeat-Before header")).
Proof.
  intros py_float net api_url uuid addr req hb.
  assert (Hhb : hb = match net O req with
      | TransportFailed e => PyRaise (HeartbeatError (py_str_exc e))
      | Responded response =>
          if negb (status_code response =? codes_NO_CONTENT) then
            PyRaise (HeartbeatError (String.append "Invalid status code: "
                                       (py_str_int (status_code response))))
          else match header_get (headers response) "Heartbeat-Before" with
               | None => PyRaise (HeartbeatError "Missing Heartbeat-Before header")
               | Some v => match py_float v with
                           | None => PyRaise (HeartbeatError "Invalid Heartbeat-Before header")
                           | Some q => PyReturn q
                           end
               end
      end) by reflexivity.
  split; [|split; [|split; [|split; [|split; [|split; [|split]]]]]].
  - intros q. rewrite Hhb. split.
    + destruct (net O req) as [e|r]; [discriminate|].
      destruct (status_code r =? codes_NO_CONTENT) eqn:Es; simpl; [|discriminate].
      destruct (header_get (headers r) "Heartbeat-Before") as [v|] eqn:Eh; [|discriminate].
      destruct (py_float v) as [q'|] eqn:Ef; [|discriminate].
      intros H. injection H as ->. exists r, v. apply Z.eqb_eq in Es. auto.
    + intros [r [v [En [Es [Eh Ef]]]]]. rewrite En, Es. simpl. rewrite Eh, Ef. reflexivity.
  - intros e En. rewrite Hhb, En. reflexivity.
  - intros r En Es. rewrite Hhb, En. apply Z.eqb_neq in Es. rewrite Es. simpl.
    eexists. reflexivity.
  - intros r En Es Eh. rewrite Hhb, En, Es. simpl. rewrite Eh. reflexivity.
  - intros r v En Es Eh Ef. rewrite Hhb, En, Es. simpl. rewrite Eh, Ef. reflexivity.
  - intros net' E. unfold hb, heartbeat, _request. rewrite E. reflexivity.
  - intros b En. unfold heartbeat, _request. fold (heartbeat_request api_url uuid addr).
    fold req. rewrite En. vm_compute. reflexivity.
  - intros b En. unfold heartbeat, _request. fold (heartbeat_request api_url uuid addr).
    fold req. rewrite En. vm_compute. reflexivity.
Qed.

(** ** The heap model against the value model *)

Lemma length_list_set {A : Type} : forall (l : list A) n x,
  List.length (list_set l n x) = List.length l.
Proof. induction l as [|y l IH]; intros [|n] x; simpl; auto. Qed.

Lemma nth_list_set_same {A : Type} : forall (l : list A) n x d,
  (n < List.length l)%nat -> nth n (list_set l n x) d = x.
Proof.
  induction l as [|y l IH]; intros [|n] x d Hn; simpl in *; try lia; auto.
  apply IH. lia.
Qed.

Lemma nth_list_set_other {A : Type} : forall (l : list A) n m x d,
  n <> m -> nth m (list_set l n x) d = nth m l d.
Proof.
  induction l as [|y l IH]; intros [|n] [|m] x d Hnm; simpl; auto; try congruence.
Qed.

Lemma firstn_list_set {A : Type} : forall (l : list A) n m x,
  (m <= n)%nat -> firstn m (list_set l n x) = firstn m l.
Proof.
  induction l as [|y l IH]; intros [|n] [|m] x Hle; simpl; auto; try lia.
  f_equal. apply IH. lia.
Qed.

Section HeapRefinement.
Variables (a_int a_tot n0 len : nat) (h_before : heap).
Hypothesis Hdistinct : a_int <> a_tot.
Hypothesis Hint : (n0 <= a_int < len)%nat.
Hypothesis Htot : (n0 <= a_tot < len)%nat.

(** The heap holds the two lists of the retry state at their
    addresses, keeps its size, and leaves the first [n0] objects as they
    were before the call. *)
Definition heap_rel (st : retry_state) (h : heap) : Prop :=
  nth a_int h [] = intervals st /\ nth a_tot h [] = [total_time st] /\
  List.length h = len /\ firstn n0 h = h_before.

Lemma next_interval_h_sim : forall timeout st h,
  heap_rel st h ->
  let '(o1, st') := next_interval timeout st in
  let '(o2, h') := next_interval_h timeout a_int a_tot h in
  o1 = o2 /\ heap_rel st' h'.
Proof.
  intros timeout st h [Hi [Ht [Hl Hf]]].
  unfold next_interval, next_interval_h. rewrite Hi, Ht.
  destruct (py_last (intervals st)) as [l|]; [|split; [reflexivity | repeat split; auto]].
  cbv zeta.
  destruct (total_time st + l * 2 >? timeout); [split; [reflexivity | repeat split; auto]|].
  split; [reflexivity|].
  rewrite (nth_list_set_other h a_tot a_int) by congruence. rewrite Hi.
  unfold heap_rel; simpl. repeat split.
  - apply nth_list_set_same. rewrite length_list_set. lia.
  - rewrite nth_list_set_other by congruence.
    apply nth_list_set_same. lia.
  - rewrite !length_list_set. exact Hl.
  - rewrite !firstn_list_set by lia. exact Hf.
Qed.

Lemma do_lookup_h_sim : forall net api_url k hw timeout st h,
  heap_rel st h ->
  let '(o1, st', w1) := _do_lookup net api_url k hw timeout st in
  let '(o2, h', w2) := _do_lookup_h net api_url k hw timeout a_int a_tot h in
  o1 = o2 /\ w1 = w2 /\ heap_rel st' h'.
Proof.
  intros net api_url k hw timeout st h HR.
  pose proof (next_interval_h_sim timeout st h HR) as Hn.
  unfold _do_lookup, _do_lookup_h, do_lookup_body. cbv zeta.
  destruct (next_interval timeout st) as [o1 st'],
           (next_interval_h timeout a_int a_tot h) as [o2 h'].
  destruct Hn as [<- HR'].
  repeat match goal with
         | |- context [match ?x with _ => _ end] =>
             let T := type of x in
             match T with
             | transport_result => destruct x
             | bool => destruct x
             | option json => destruct x
             | (exc + bool)%type => destruct x
             | (exc + json)%type => destruct x
             end
         end; (split; [reflexivity | split; [reflexivity | assumption]]).
Qed.
End HeapRefinement.

Lemma lookup_node_h_spec : forall net api_url fuel hw timeout s h,
  let '(res, h') := lookup_node_h net api_url fuel hw timeout s h in
  res = lookup_node net api_url fuel hw timeout s /\
  firstn (List.length h) h' = h /\ List.length h' = (List.length h + 2)%nat /\
  nth (List.length h) h' [] = intervals (run_state (lookup_run net api_url fuel hw timeout s)) /\
  nth (S (List.length h)) h' []
  = [total_time (run_state (lookup_run net api_url fuel hw timeout s))].
Proof.
  intros. unfold lookup_node_h, lookup_node, lookup_run, loop_start_wait.
  set (n := List.length h).
  assert (HR0 : heap_rel n (S n) n (n + 2) h (mk_retry_state [s] 0) (h ++ [[s]; [0]])).
  { unfold heap_rel, n. simpl. repeat split.
    - rewrite app_nth2, Nat.sub_diag by lia. reflexivity.
    - rewrite app_nth2 by lia. replace (S (List.length h) - List.length h)%nat with 1%nat by lia.
      reflexivity.
    - rewrite length_app. reflexivity.
    - rewrite firstn_app, firstn_all, Nat.sub_diag. apply app_nil_r. }
  pose proof (dynamic_loop_sim
    (fun k st => _do_lookup net api_url k hw timeout st)
    (fun k h' => _do_lookup_h net api_url k hw timeout n (S n) h')
    (heap_rel n (S n) n (n + 2) h)
    (fun k s1 s2 HR => do_lookup_h_sim n (S n) n (n + 2) h ltac:(lia) ltac:(lia) ltac:(lia)
                         net api_url k hw timeout s1 s2 HR)
    fuel O _ _ [] [] HR0) as [He [_ [_ [_ [Hi [Ht [Hl Hf]]]]]]].
  rewrite He. repeat split; [exact Hf | exact Hl | exact Hi | exact Ht].
Qed.


(** C8 (fresh retry state per call). Each call of [lookup_node] runs on
    two list objects it allocates itself, [[starting_interval]] and [[0]],
    which hold its retry state; it never uses the default lists of
    [_do_lookup] or any other object that existed before the call, and
    leaves all of them as they were. Its result is the one of the value
    model whatever the heap, so a second call, on the heap left by the
    first, gives the same result as the first. *)
Theorem C8_fresh_retry_state : forall net api_url fuel hw timeout s h,
  let '(r1, h1) := lookup_node_h net api_url fuel hw timeout s h in
  let '(r2, h2) := lookup_node_h net api_url fuel hw timeout s h1 in
  r1 = lookup_node net api_url fuel hw timeout s /\ r2 = r1 /\
  firstn (List.length h) h1 = h /\ firstn (List.length h1) h2 = h1 /\
  nth (List.length h) h1 [] = intervals (run_state (lookup_run net api_url fuel hw timeout s)) /\
  nth (List.length h1) h2 [] = intervals (run_state (lookup_run net api_url fuel hw timeout s)) /\
  hd 0 (nth (List.length h) h1 []) = s /\
  (firstn 2 h = class_heap -> firstn 2 h1 = class_heap /\ firstn 2 h2 = class_heap).
Proof.
  intros net api_url fuel hw timeout s h.
  pose proof (lookup_node_h_spec net api_url fuel hw timeout s h) as H1.
  destruct (lookup_node_h net api_url fuel hw timeout s h) as [r1 h1].
  pose proof (lookup_node_h_spec net api_url fuel hw timeout s h1) as H2.
  destruct (lookup_node_h net api_url fuel hw timeout s h1) as [r2 h2].
  destruct H1 as [-> [Hf1 [Hl1 [Hi1 _]]]], H2 as [-> [Hf2 [Hl2 [Hi2 _]]]].
  pose proof (lookup_run_inv net api_url fuel hw timeout s) as [Hinv _].
  cbv zeta in Hinv.
  split; [reflexivity|]. split; [reflexivity|].
  split; [exact Hf1|]. split; [exact Hf2|]. split; [exact Hi1|]. split; [exact Hi2|].
  split; [rewrite Hi1, Hinv; reflexivity|].
  intros Hc.
  assert (Hlen : (2 <= List.length h)%nat).
  { assert (E : List.length (firstn 2 h) = 2%nat) by (rewrite Hc; reflexivity).
    rewrite length_firstn in E. lia. }
  assert (E1 : firstn 2 h1 = class_heap).
  { rewrite <- Hc, <- Hf1, firstn_firstn. f_equal. lia. }
  split; [exact E1|].
  rewrite <- E1, <- Hf2, firstn_firstn. f_equal. lia.
Qed.

(** * Further properties of the client *)

(** ** APIClient.__init__ *)

Lemma list_ascii_of_string_append : forall a b,
  list_ascii_of_string (String.append a b) = list_ascii_of_string a ++ list_ascii_of_string b.
Proof. induction a as [|c a IH]; intros b; simpl; [reflexivity | rewrite IH; reflexivity]. Qed.

Lemma list_ascii_of_slashes : forall n, list_ascii_of_string (slashes n) = repeat "/"%char n.
Proof. induction n as [|n IH]; simpl; [reflexivity | rewrite IH; reflexivity]. Qed.

Lemma drop_slashes_repeat : forall n l, drop_slashes (repeat "/"%char n ++ l) = drop_slashes l.
Proof. induction n as [|n IH]; intros l; simpl; [reflexivity | apply IH]. Qed.

Lemma rstrip_slash_slashes : forall s n,
  rstrip_slash (String.append s (slashes n)) = rstrip_slash s.
Proof.
  intros s n. unfold rstrip_slash.
  rewrite list_ascii_of_string_append, list_ascii_of_slashes, rev_app_distr, rev_repeat.
  rewrite drop_slashes_repeat. reflexivity.
Qed.

Lemma drop_slashes_head : forall l l', drop_slashes l <> "/"%char :: l'.
Proof.
  induction l as [|c l IH]; intros l' H; simpl in H; [discriminate|].
  destruct (Ascii.eqb c "/"%char) eqn:E.
  - apply Ascii.eqb_eq in E. subst c. exact (IH l' H).
  - destruct c as [[] [] [] [] [] [] [] []]; try discriminate E;
      injection H; discriminate.
Qed.

(** X1. [APIClient.__init__] strips the trailing slashes of [api_url]:
    the client keeps no trailing slash, so the leading slash of a path is
    never doubled, and a base URL given with any number of trailing
    slashes yields exactly the requests (lookup and heartbeat) of the
    same URL without them. *)
Theorem X1_init_strips_trailing_slashes : forall api_url n hw uuid addr,
  (forall p, APIClient_api_url api_url <> String.append p "/") /\
  APIClient_api_url (String.append api_url (slashes n)) = APIClient_api_url api_url /\
  lookup_request (APIClient_api_url (String.append api_url (slashes n))) hw
  = lookup_request (APIClient_api_url api_url) hw /\
  heartbeat_request (APIClient_api_url (String.append api_url (slashes n))) uuid addr
  = heartbeat_request (APIClient_api_url api_url) uuid addr.
Proof.
  intros api_url n hw uuid addr.
  unfold APIClient_api_url. rewrite rstrip_slash_slashes.
  split; [|repeat split].
  intros p H. unfold rstrip_slash in H.
  apply (f_equal list_ascii_of_string) in H.
  rewrite list_ascii_of_string_of_list_ascii, list_ascii_of_string_append in H.
  apply (f_equal (@rev ascii)) in H.
  rewrite rev_involutive, rev_app_distr in H. simpl in H.
  exact (drop_slashes_head _ _ H).
Qed.

(** ** _do_lookup: the validation of the response *)

Ltac destruct_scrutinee_in H :=
  match type of H with
  | context [match ?x with _ => _ end] =>
      let T := type of x in
      match T with
      | transport_result => destruct x eqn:?
      | bool => destruct x eqn:?
      | option json => destruct x eqn:?
      | (exc + bool)%type => destruct x eqn:?
      | (exc + json)%type => destruct x eqn:?
      | (call_outcome * retry_state)%type => destruct x eqn:?
      end
  end.

Lemma py_getitem_ok : forall c k n, py_getitem c k = inr n ->
  exists kv, c = JObj kv /\ obj_get kv k = Some n.
Proof.
  intros c k n H. destruct c; simpl in H; try discriminate.
  destruct (obj_get kv k) eqn:E; [injection H as ->; eauto | discriminate].
Qed.

(** The values [_do_lookup] signals Done with: True (the deadline check)
    or a decoded body that passed the checks. *)
Lemma do_lookup_done_shape : forall net api_url k hw timeout st c st' w,
  _do_lookup net api_url k hw timeout st = (Raised (LoopingCallDone c), st', w) ->
  c = py_True \/
  exists kv n, c = JObj kv /\ obj_get kv "node" = Some n /\
    py_contains "uuid" n = inr true /\ obj_get kv "heartbeat_timeout" <> None.
Proof.
  intros net api_url k hw timeout st c st' w H.
  unfold _do_lookup, do_lookup_body in H. cbv zeta in H.
  repeat destruct_scrutinee_in H; try discriminate H;
    injection H as Ho Hs Hw; subst;
    match goal with
    | E : next_interval _ _ = (Raised (LoopingCallDone c), _) |- _ =>
        left; apply next_interval_cases in E;
        destruct E as [[_ [E _]] | [l [_ [[_ [E _]] | [_ [E _]]]]]];
        congruence
    | E : py_contains _ _ = inl _ |- _ =>
        apply py_contains_error in E; discriminate E
    | E : py_getitem _ _ = inl _ |- _ =>
        apply py_getitem_error in E; destruct E as [E | E]; discriminate E
    | _ => idtac
    end.
  right.
  match goal with
  | G : py_getitem _ "node" = inr ?n |- _ =>
      destruct (py_getitem_ok _ _ _ G) as [kv [-> Hk]]
  end.
  exists kv. eexists. split; [reflexivity|]. split; [eassumption|]. split; [eassumption|].
  match goal with
  | G : py_contains "heartbeat_timeout" (JObj kv) = inr true |- _ =>
      simpl in G; destruct (obj_get kv "heartbeat_timeout"); [discriminate | discriminate G]
  end.
Qed.

(** X2. For a 200 response whose body decodes to a JSON object whose
    ['node'], when present, is an object, [_do_lookup] lets no exception
    out: it signals Done with the body, keeping the retry state, exactly
    when the body has [node.uuid] and [heartbeat_timeout]; otherwise it
    logs one warning and does what [next_interval] does. *)
Theorem X2_object_body_validation : forall net api_url k hw timeout st r kv,
  net k (lookup_request api_url hw) = Responded r ->
  status_code r = codes_OK ->
  content r = Some (JObj kv) ->
  (forall n, obj_get kv "node" = Some n -> exists kv', n = JObj kv') ->
  (((exists kv', obj_get kv "node" = Some (JObj kv') /\ obj_get kv' "uuid" <> None) /\
    obj_get kv "heartbeat_timeout" <> None) ->
   _do_lookup net api_url k hw timeout st = (Raised (LoopingCallDone (JObj kv)), st, [])) /\
  (~ ((exists kv', obj_get kv "node" = Some (JObj kv') /\ obj_get kv' "uuid" <> None) /\
      obj_get kv "heartbeat_timeout" <> None) ->
   exists w, _do_lookup net api_url k hw timeout st
             = (fst (next_interval timeout st), snd (next_interval timeout st), [w])).
Proof.
  intros net api_url k hw timeout st r kv En Es Ec Hnode.
  unfold _do_lookup, do_lookup_body, _request. fold (lookup_request api_url hw).
  rewrite En, Es, Ec. simpl py_contains. simpl py_getitem. cbv zeta.
  destruct (next_interval timeout st) as [o st'].
  destruct (obj_get kv "node") as [n|] eqn:Eno.
  - destruct (Hnode n eq_refl) as [kv' ->]. simpl py_contains.
    destruct (obj_get kv' "uuid") as [u|] eqn:Eu;
      destruct (obj_get kv "heartbeat_timeout") as [t|] eqn:Et; simpl.
    + split; [reflexivity|]. intros Hn. exfalso. apply Hn.
      split; [exists kv'; split; [reflexivity | rewrite Eu; discriminate] | discriminate].
    + split; [intros [_ Hh]; exfalso; exact (Hh eq_refl) | intros _; eexists; reflexivity].
    + split; [intros [[kv'' [Hk Hu]] _]; injection Hk as <-; exfalso; exact (Hu Eu)
             | intros _; eexists; reflexivity].
    + split; [intros [[kv'' [Hk Hu]] _]; injection Hk as <-; exfalso; exact (Hu Eu)
             | intros _; eexists; reflexivity].
  - simpl. split; [intros [[kv' [Hk _]] _]; discriminate Hk | intros _; eexists; reflexivity].
Qed.

Lemma X2_witness :
  let kv := [("node", JObj [("uuid", JStr "abc")]); ("heartbeat_timeout", JNum 300)] in
  always (resp 200 (Some (JObj kv))) O (lookup_request "http://ironic" JNull)
    = Responded (mk_response 200 [] (Some (JObj kv))) /\
  status_code (mk_response 200 [] (Some (JObj kv))) = codes_OK /\
  content (mk_response 200 [] (Some (JObj kv))) = Some (JObj kv) /\
  (forall n, obj_get kv "node" = Some n -> exists kv', n = JObj kv') /\
  ((((exists kv', obj_get kv "node" = Some (JObj kv') /\ obj_get kv' "uuid" <> None) /\
     obj_get kv "heartbeat_timeout" <> None) ->
    _do_lookup (always (resp 200 (Some (JObj kv)))) "http://ironic" O JNull 60
      (mk_retry_state [1] 0)
    = (Raised (LoopingCallDone (JObj kv)), mk_retry_state [1] 0, [])) /\
   (~ ((exists kv', obj_get kv "node" = Some (JObj kv') /\ obj_get kv' "uuid" <> None) /\
       obj_get kv "heartbeat_timeout" <> None) ->
    exists w, _do_lookup (always (resp 200 (Some (JObj kv)))) "http://ironic" O JNull 60
                (mk_retry_state [1] 0)
              = (fst (next_interval 60 (mk_retry_state [1] 0)),
                 snd (next_interval 60 (mk_retry_state [1] 0)), [w]))).
Proof.
  cbv zeta.
  assert (Hn : forall n, obj_get [("node", JObj [("uuid", JStr "abc")]);
                                  ("heartbeat_timeout", JNum 300)] "node" = Some n ->
                         exists kv', n = JObj kv')
    by (intros n E; simpl in E; injection E as <-; eexists; reflexivity).
  split; [reflexivity|]. split; [reflexivity|]. split; [reflexivity|]. split; [exact Hn|].
  exact (X2_object_body_validation (always (resp 200 (Some (JObj _)))) "http://ironic" O JNull 60
           (mk_retry_state [1] 0) (mk_response 200 [] (Some (JObj _))) _
           eq_refl eq_refl eq_refl Hn).
Defined.

(** X3. Every failure before the body is decoded is retried: a transport
    error, a status other than 200 (a 201 or 204 included, whatever the
    body) and a body that [json.loads] rejects each log one warning naming
    the failure and give the outcome and retry state of [next_interval]. *)
Theorem X3_failures_retry : forall net api_url k hw timeout st,
  let req := lookup_request api_url hw in
  let retried w := (fst (next_interval timeout st), snd (next_interval timeout st), [w]) in
  (forall e, net k req = TransportFailed e ->
     _do_lookup net api_url k hw timeout st = retried (W_post_failed e)) /\
  (forall r, net k req = Responded r -> status_code r <> codes_OK ->
     _do_lookup net api_url k hw timeout st = retried (W_invalid_status (status_code r))) /\
  (forall r, net k req = Responded r -> status_code r = codes_OK -> content r = None ->
     _do_lookup net api_url k hw timeout st = retried W_decode_error).
Proof.
  intros net api_url k hw timeout st req retried.
  unfold retried, req.
  split; [|split].
  - intros e En. unfold _do_lookup, do_lookup_body, _request. fold (lookup_request api_url hw).
    rewrite En. destruct (next_interval timeout st). reflexivity.
  - intros r En Hs. exact (do_lookup_failed_status _ _ _ _ _ _ _ En Hs).
  - intros r En Hs Hc. unfold _do_lookup, do_lookup_body, _request.
    fold (lookup_request api_url hw). rewrite En, Hs, Hc. simpl.
    destruct (next_interval timeout st). reflexivity.
Qed.

(** X4. What [lookup_node] returns is always a JSON object with a 'node'
    entry that passes ['uuid' in node] and a 'heartbeat_timeout' entry
    (never True, never another kind of value). *)
Theorem X4_lookup_result_shape : forall net api_url fuel hw timeout s v,
  lookup_node net api_url fuel hw timeout s = PyReturn v ->
  exists kv n, v = JObj kv /\ obj_get kv "node" = Some n /\
    py_contains "uuid" n = inr true /\ obj_get kv "heartbeat_timeout" <> None.
Proof.
  intros net api_url fuel hw timeout s v H.
  unfold lookup_node, lookup_result, lookup_run, loop_start_wait in H.
  pose proof (dynamic_loop_end
    (fun k st => _do_lookup net api_url k hw timeout st) (lookup_inv timeout s)
    (fun k st sl o st' w Hinv H => lookup_inv_step _ _ _ _ _ _ _ _ _ _ _ Hinv H)
    fuel O (mk_retry_state [s] 0) [] [] (lookup_inv_init timeout s)) as Hend.
  cbv zeta in Hend.
  set (run := dynamic_loop _ fuel O (mk_retry_state [s] 0) [] []) in *.
  destruct (run_end run) as [rv|e|]; [|discriminate H|discriminate H].
  destruct (is_py_True rv) eqn:Et; [discriminate H|]. injection H as ->.
  destruct Hend as [s0 [w [_ Hd]]].
  apply do_lookup_done_shape in Hd. destruct Hd as [-> | Hd]; [discriminate Et | exact Hd].
Qed.

Lemma X4_witness :
  lookup_node (always (resp 200 (Some good_body))) "http://ironic" 1 JNull 60 1 = PyReturn good_body /\
  exists kv n, good_body = JObj kv /\ obj_get kv "node" = Some n /\
    py_contains "uuid" n = inr true /\ obj_get kv "heartbeat_timeout" <> None.
Proof.
  split; [reflexivity|].
  apply (X4_lookup_result_shape (always (resp 200 (Some good_body))) "http://ironic" 1 JNull 60 1).
  reflexivity.
Defined.

(** ** Helpers on the number of requests *)

Lemma sum_pows : forall s n, sum_Z (pows s n) = s * (2 ^ Z.of_nat n - 1).
Proof.
  intros s n. induction n as [|n IH]; [unfold pows, sum_Z; simpl; ring|].
  rewrite pows_S, sum_Z_app, IH, Nat2Z.inj_succ, Z.pow_succ_r by lia.
  unfold sum_Z at 1. cbn [fold_right]. ring.
Qed.

(** The sleeps of a run of [lookup_node] sum to [s * (2^(n+1) - 2)] for
    [n] sleeps. *)
Lemma lookup_run_sum_sleeps : forall net api_url fuel hw timeout s,
  let sl := run_sleeps (lookup_run net api_url fuel hw timeout s) in
  sum_Z sl = s * (2 ^ Z.of_nat (S (List.length sl)) - 2).
Proof.
  intros net api_url fuel hw timeout s sl.
  destruct (lookup_run_inv net api_url fuel hw timeout s) as [_ [Hp _]]. fold sl in Hp.
  pose proof (sum_pows s (S (List.length sl))) as H. rewrite <- Hp in H.
  unfold sum_Z in H |- *. simpl in H. lia.
Qed.

Lemma dynamic_loop_out_of_fuel {St : Type} (f : nat -> St -> call_outcome * St * list log_entry) :
  forall fuel k s sl lg,
  run_end (dynamic_loop f fuel k s sl lg) = LoopOutOfFuel ->
  run_calls (dynamic_loop f fuel k s sl lg) = (k + fuel)%nat.
Proof.
  induction fuel as [|fuel IH]; intros k s sl lg H; simpl in *; [lia|].
  destruct (f k s) as [[o s'] w].
  destruct o as [i|e]; [rewrite IH; [lia | exact H]|].
  destruct e; discriminate H.
Qed.

(** For a positive [starting_interval], a run sends at most
    [log2 (timeout + 2)] requests. *)
Lemma lookup_run_calls_bound : forall net api_url fuel hw timeout s,
  0 < s ->
  2 ^ Z.of_nat (run_calls (lookup_run net api_url fuel hw timeout s)) <= Z.max timeout 0 + 2.
Proof.
  intros net api_url fuel hw timeout s Hs.
  pose proof (lookup_run_calls net api_url fuel hw timeout s) as Hc.
  pose proof (lookup_run_sum_sleeps net api_url fuel hw timeout s) as Hsum.
  destruct (lookup_run_inv net api_url fuel hw timeout s) as [_ [_ [_ Hb]]].
  cbv zeta in Hc, Hsum.
  set (r := lookup_run net api_url fuel hw timeout s) in *.
  set (n := List.length (run_sleeps r)) in *.
  assert (Hle : (run_calls r <= S n)%nat) by (rewrite Hc; destruct (run_end r); lia).
  assert (Hpow : 2 ^ Z.of_nat (run_calls r) <= 2 ^ Z.of_nat (S n))
    by (apply Z.pow_le_mono_r; lia).
  assert (H2 : 2 <= 2 ^ Z.of_nat (S n)).
  { rewrite Nat2Z.inj_succ, Z.pow_succ_r by lia.
    pose proof (Z.pow_pos_nonneg 2 (Z.of_nat n)). lia. }
  destruct n as [|n'] eqn:En.
  - simpl in Hpow. lia.
  - assert (Ht : sum_Z (run_sleeps r) <= timeout).
    { rewrite <- (firstn_all (run_sleeps r)). apply Hb. fold n. lia. }
    rewrite Hsum in Ht. nia.
Qed.

(** With [2^fuel] above [timeout + 2], the model never runs out of fuel. *)
Lemma lookup_run_terminates : forall net api_url fuel hw timeout s,
  0 < s -> Z.max timeout 0 + 2 < 2 ^ Z.of_nat fuel ->
  run_end (lookup_run net api_url fuel hw timeout s) <> LoopOutOfFuel.
Proof.
  intros net api_url fuel hw timeout s Hs Hf Hend.
  pose proof (lookup_run_calls_bound net api_url fuel hw timeout s Hs) as Hb.
  unfold lookup_run, loop_start_wait in Hend, Hb.
  rewrite (dynamic_loop_out_of_fuel _ _ _ _ _ _ Hend) in Hb. simpl in Hb. lia.
Qed.

(** Against a service that never answers 200, [_do_lookup] always does
    what [next_interval] does. *)
Lemma never_OK_do_lookup : forall net api_url k hw timeout st,
  never_OK net ->
  exists w, _do_lookup net api_url k hw timeout st
            = (fst (next_interval timeout st), snd (next_interval timeout st), [w]).
Proof.
  intros net api_url k hw timeout st Hn.
  destruct (net k (lookup_request api_url hw)) as [e|r] eqn:En.
  - exists (W_post_failed e). unfold _do_lookup, do_lookup_body, _request.
    fold (lookup_request api_url hw). rewrite En. destruct (next_interval timeout st). reflexivity.
  - exists (W_invalid_status (status_code r)).
    exact (do_lookup_failed_status _ _ _ _ _ _ _ En (Hn _ _ _ En)).
Qed.

(** Against such a service no exception but the deadline's ends the run. *)
Lemma never_OK_run_end : forall net api_url fuel hw timeout s,
  never_OK net ->
  run_end (lookup_run net api_url fuel hw timeout s) = LoopOutOfFuel \/
  run_end (lookup_run net api_url fuel hw timeout s) = LoopDone py_True.
Proof.
  intros net api_url fuel hw timeout s Hn.
  pose proof (lookup_run_end_cases net api_url fuel hw timeout s) as Hend.
  unfold lookup_run, loop_start_wait in *.
  pose proof (dynamic_loop_end
    (fun k st => _do_lookup net api_url k hw timeout st) (lookup_inv timeout s)
    (fun k st sl o st' w Hinv H => lookup_inv_step _ _ _ _ _ _ _ _ _ _ _ Hinv H)
    fuel O (mk_retry_state [s] 0) [] [] (lookup_inv_init timeout s)) as Hend'.
  cbv zeta in Hend, Hend'.
  set (run := dynamic_loop _ fuel O (mk_retry_state [s] 0) [] []) in *.
  destruct (run_end run) as [rv|e|]; [| |left; reflexivity].
  - right. destruct Hend as [[-> _] | [_ [r [En [Es _]]]]]; [reflexivity|].
    exfalso. exact (Hn _ _ _ En Es).
  - exfalso. destruct Hend' as [Hne [s0 [w [Hinv H]]]].
    destruct (never_OK_do_lookup net api_url (pred (run_calls run)) hw timeout s0 Hn)
      as [w' Hw]. rewrite H in Hw.
    destruct (next_interval timeout s0) as [o st'] eqn:Eni. simpl in Hw.
    injection Hw as Ho _ _. subst o.
    apply next_interval_cases in Eni. rewrite (lookup_inv_last _ _ _ _ Hinv) in Eni.
    destruct Eni as [[Hnone _] | [l [_ [[_ [Ho _]] | [_ [Ho _]]]]]];
      [discriminate | | discriminate].
    injection Ho as ->. exact (Hne _ eq_refl).
Qed.



(** X6. Against a service that never answers 200 (whatever it answers,
    or failing at the transport), [lookup_node] with a positive
    [starting_interval] ends with LookupNodeError, once enough
    invocations are allowed. *)
Theorem X6_never_OK_times_out : forall net api_url fuel hw timeout s,
  never_OK net -> 0 < s -> Z.max timeout 0 + 2 < 2 ^ Z.of_nat fuel ->
  lookup_node net api_url fuel hw timeout s = PyRaise (LookupNodeError lookup_error_msg).
Proof.
  intros net api_url fuel hw timeout s Hn Hs Hf.
  pose proof (lookup_run_terminates net api_url fuel hw timeout s Hs Hf) as Ht.
  unfold lookup_node.
  destruct (never_OK_run_end net api_url fuel hw timeout s Hn) as [E | E];
    [exfalso; exact (Ht E) | rewrite E; reflexivity].
Qed.

Lemma X6_witness :
  never_OK (fun k _ => if Nat.even k then TransportFailed (TransportError "refused")
                       else resp 503 None) /\ 0 < 1 /\ Z.max 60 0 + 2 < 2 ^ Z.of_nat 7 /\
  lookup_node (fun k _ => if Nat.even k then TransportFailed (TransportError "refused")
                          else resp 503 None) "http://ironic" 7 JNull 60 1
  = PyRaise (LookupNodeError lookup_error_msg).
Proof.
  assert (Hn : never_OK (fun k _ => if Nat.even k then TransportFailed (TransportError "refused")
                                    else resp 503 None)).
  { intros k req r E. destruct (Nat.even k); [discriminate E|].
    injection E as <-. simpl. discriminate. }
  split; [exact Hn|]. split; [lia|]. split; [simpl; lia|].
  apply X6_never_OK_times_out; [exact Hn | lia | simpl; lia].
Defined.

(** X7. With a [starting_interval] of 0 or below and a [timeout] of 0 or
    above, against a service that never answers 200, [lookup_node] never
    ends: the deadline check never fires, every sleep is 0 or negative
    and every bound on the invocations is used up. *)
Theorem X7_nonpositive_interval_loops : forall net api_url fuel hw timeout s,
  never_OK net -> s <= 0 -> 0 <= timeout ->
  let r := lookup_run net api_url fuel hw timeout s in
  run_end r = LoopOutOfFuel /\ run_calls r = fuel /\
  (forall x, In x (run_sleeps r) -> x <= 0) /\
  lookup_node net api_url fuel hw timeout s = PyNoAnswer.
Proof.
  intros net api_url fuel hw timeout s Hn Hs Ht r.
  assert (Hsl : forall x, In x (run_sleeps r) -> x <= 0).
  { intros x Hx. apply (In_nth _ _ 0) in Hx. destruct Hx as [i [Hi <-]].
    unfold r. rewrite (lookup_run_sleep_nth net api_url fuel hw timeout s i Hi).
    pose proof (Z.pow_pos_nonneg 2 (Z.of_nat (S i))). nia. }
  assert (He : run_end r = LoopOutOfFuel).
  { destruct (never_OK_run_end net api_url fuel hw timeout s Hn) as [E | E]; [exact E|].
    exfalso.
    pose proof (lookup_run_end_cases net api_url fuel hw timeout s) as Hend.
    pose proof (lookup_run_sum_sleeps net api_url fuel hw timeout s) as Hsum.
    destruct (lookup_run_inv net api_url fuel hw timeout s) as [_ [_ [Htot _]]].
    cbv zeta in Hend, Hsum. fold r in Hend, Hsum, Htot, E. rewrite E in Hend.
    destruct Hend as [[_ Hgt] | [Hf _]]; [|discriminate Hf].
    rewrite Htot, Hsum in Hgt.
    set (n := List.length (run_sleeps r)) in *.
    pose proof (Z.pow_pos_nonneg 2 (Z.of_nat n)) as Hp.
    assert (H2 : 2 ^ Z.of_nat (S n) = 2 * 2 ^ Z.of_nat n)
      by (rewrite Nat2Z.inj_succ, Z.pow_succ_r by lia; reflexivity).
    rewrite H2 in Hgt. nia. }
  split; [exact He|]. split; [|split; [exact Hsl|]].
  - unfold r, lookup_run, loop_start_wait in He |- *.
    rewrite (dynamic_loop_out_of_fuel _ _ _ _ _ _ He). reflexivity.
  - unfold lookup_node. fold r. rewrite He. reflexivity.
Qed.

Lemma X7_witness :
  never_OK (always (resp 404 None)) /\ 0 <= 0 /\ 0 <= 60 /\
  (let r := lookup_run (always (resp 404 None)) "http://ironic" 50 JNull 60 0 in
   run_end r = LoopOutOfFuel /\ run_calls r = 50%nat /\
   (forall x, In x (run_sleeps r) -> x <= 0) /\
   lookup_node (always (resp 404 None)) "http://ironic" 50 JNull 60 0 = PyNoAnswer).
Proof.
  assert (Hn : never_OK (always (resp 404 None)))
    by (intros k req r E; injection E as <-; simpl; discriminate).
  split; [exact Hn|]. split; [lia|]. split; [lia|].
  apply X7_nonpositive_interval_loops; [exact Hn | lia | lia].
Defined.

(** X8. [_do_lookup] called without [intervals] and [total_time] works on
    the default lists, created once with the class and shared by all such
    calls. After [n] counted failures they hold [[1, 2, ..., 2^n]] and
    [[2^(n+1) - 2]]; one more failed answer either appends [2^(n+1)] to
    them and returns it as the sleep, or, once the budget is used up,
    signals the deadline and leaves them as they are, so every later such
    call without a 200 answer signals it again. *)
Theorem X8_default_lists_shared : forall net api_url k hw timeout n rest r,
  net k (lookup_request api_url hw) = Responded r -> status_code r <> codes_OK ->
  _do_lookup_defaults net api_url k hw timeout
    (pows 1 (S n) :: [2 ^ Z.of_nat (S n) - 2] :: rest)
  = if 2 ^ Z.of_nat (S (S n)) - 2 <=? timeout then
      (Returned (2 ^ Z.of_nat (S n)),
       pows 1 (S (S n)) :: [2 ^ Z.of_nat (S (S n)) - 2] :: rest,
       [W_invalid_status (status_code r)])
    else
      (Raised (LoopingCallDone py_True),
       pows 1 (S n) :: [2 ^ Z.of_nat (S n) - 2] :: rest,
       [W_invalid_status (status_code r)]).
Proof.
  intros net api_url k hw timeout n rest r En Hs.
  unfold _do_lookup_defaults, _do_lookup_h, do_lookup_body, _request.
  fold (lookup_request api_url hw). rewrite En.
  apply Z.eqb_neq in Hs. rewrite Hs.
  unfold next_interval_h. cbn [nth]. rewrite pows_S, py_last_app. cbv zeta.
  assert (Hpow : 2 ^ Z.of_nat (S (S n)) = 2 * 2 ^ Z.of_nat (S n))
    by (rewrite (Nat2Z.inj_succ (S n)), Z.pow_succ_r by lia; reflexivity).
  assert (Hpow' : 2 ^ Z.of_nat (S n) = 2 * 2 ^ Z.of_nat n)
    by (rewrite (Nat2Z.inj_succ n), Z.pow_succ_r by lia; reflexivity).
  assert (Hsum : 2 ^ Z.of_nat (S n) - 2 + 1 * 2 ^ Z.of_nat n * 2 = 2 ^ Z.of_nat (S (S n)) - 2)
    by lia.
  rewrite Hsum.
  destruct (2 ^ Z.of_nat (S (S n)) - 2 <=? timeout) eqn:Et.
  - apply Z.leb_le in Et.
    replace (2 ^ Z.of_nat (S (S n)) - 2 >? timeout) with false
      by (symmetry; rewrite Z.gtb_ltb; apply Z.ltb_ge; exact Et).
    cbn [list_set nth]. rewrite <- (pows_S 1 n), (pows_S 1 (S n)).
    replace (1 * 2 ^ Z.of_nat n * 2) with (2 ^ Z.of_nat (S n)) by lia.
    replace (1 * 2 ^ Z.of_nat (S n)) with (2 ^ Z.of_nat (S n)) by lia.
    reflexivity.
  - apply Z.leb_gt in Et.
    replace (2 ^ Z.of_nat (S (S n)) - 2 >? timeout) with true
      by (symmetry; rewrite Z.gtb_ltb; apply Z.ltb_lt; exact Et).
    rewrite <- pows_S. reflexivity.
Qed.

(** Two calls without the optional lists against a failing service: the
    second one continues where the first left the shared defaults. *)
Lemma X8_witness :
  let net := always (resp 500 None) in
  net O (lookup_request "http://ironic" JNull) = Responded (mk_response 500 [] None) /\
  status_code (mk_response 500 [] None) <> codes_OK /\
  _do_lookup_defaults net "http://ironic" O JNull 60 class_heap
  = (Returned 2, [[1; 2]; [2]], [W_invalid_status 500]) /\
  _do_lookup_defaults net "http://ironic" 1 JNull 60 [[1; 2]; [2]]
  = (Returned 4, [[1; 2; 4]; [6]], [W_invalid_status 500]).
Proof.
  cbv zeta. split; [reflexivity|]. split; [discriminate|]. split.
  - exact (X8_default_lists_shared (always (resp 500 None)) "http://ironic" O JNull 60 0 []
             (mk_response 500 [] None) eq_refl ltac:(discriminate)).
  - exact (X8_default_lists_shared (always (resp 500 None)) "http://ironic" 1 JNull 60 1 []
             (mk_response 500 [] None) eq_refl ltac:(discriminate)).
Defined.

(** ** Helpers on the agent URL *)

Lemma string_append_cancel_l : forall p a b,
  String.append p a = String.append p b -> a = b.
Proof. induction p as [|c p IH]; simpl; intros a b H; [exact H | injection H; apply IH]. Qed.

Lemma str_contains_colon_app : forall a b,
  str_contains ":" (String.append a (String ":" b)) = true.
Proof.
  induction a as [|c a IH]; intros b; simpl; [reflexivity|].
  rewrite IH. apply orb_true_r.
Qed.

Lemma uint_to_string_no_colon : forall u, str_contains ":" (uint_to_string u) = false.
Proof. induction u; simpl; try rewrite IHu; reflexivity. Qed.

(** [str(n)] of an int never contains a colon. *)
Lemma py_str_int_no_colon : forall n, str_contains ":" (py_str_int n) = false.
Proof.
  intros n. unfold py_str_int. destruct (Z.to_int n) as [u|u]; simpl;
    rewrite uint_to_string_no_colon; reflexivity.
Qed.

(** [host + ':' + port] splits at its last colon when [port] has none. *)
Lemma split_last_colon : forall h1 h2 p1 p2,
  str_contains ":" p1 = false -> str_contains ":" p2 = false ->
  String.append h1 (String ":" p1) = String.append h2 (String ":" p2) ->
  h1 = h2 /\ p1 = p2.
Proof.
  induction h1 as [|c h1 IH]; intros [|c' h2] p1 p2 H1 H2 E; simpl in E.
  - injection E as ->. auto.
  - injection E as _ Ep. subst p1. rewrite str_contains_colon_app in H1. discriminate H1.
  - injection E as _ Ep. subst p2. rewrite str_contains_colon_app in H2. discriminate H2.
  - injection E as <- Ep. destruct (IH h2 p1 p2 H1 H2 Ep) as [-> ->]. auto.
Qed.

Lemma uint_to_string_inj : forall u1 u2, uint_to_string u1 = uint_to_string u2 -> u1 = u2.
Proof.
  induction u1; intros [] H; simpl in H; try discriminate H;
    try (injection H as H; f_equal; apply IHu1; exact H); reflexivity.
Qed.

Lemma uint_to_string_not_dash : forall u s, uint_to_string u <> String "-" s.
Proof. intros [] s; simpl; discriminate. Qed.

(** [str] is injective on ints. *)
Lemma py_str_int_inj : forall n1 n2, py_str_int n1 = py_str_int n2 -> n1 = n2.
Proof.
  intros n1 n2 H. rewrite <- (DecimalZ.of_to n1), <- (DecimalZ.of_to n2). f_equal.
  unfold py_str_int in H.
  destruct (Z.to_int n1) as [u1|u1], (Z.to_int n2) as [u2|u2].
  - f_equal. exact (uint_to_string_inj _ _ H).
  - exfalso. exact (uint_to_string_not_dash _ _ H).
  - exfalso. exact (uint_to_string_not_dash _ _ (eq_sym H)).
  - injection H as H. f_equal. exact (uint_to_string_inj _ _ H).
Qed.

(** X9. [_get_agent_url] is injective: two advertise addresses (host,
    port) that differ give different agent URLs, even when a host holds
    colons, since [str(port)] never does. *)
Theorem X9_agent_url_injective : forall a1 a2,
  _get_agent_url a1 = _get_agent_url a2 -> a1 = a2.
Proof.
  intros [h1 p1] [h2 p2] H. unfold _get_agent_url in H.
  apply string_append_cancel_l in H. simpl in H.
  destruct (split_last_colon h1 h2 (py_str_int p1) (py_str_int p2)
              (py_str_int_no_colon p1) (py_str_int_no_colon p2) H) as [-> Hp].
  rewrite (py_str_int_inj _ _ Hp). reflexivity.
Qed.

Lemma X9_witness :
  _get_agent_url ("fe80::1", 9999) = _get_agent_url ("fe80::1", 9999) /\
  ("fe80::1", 9999) = ("fe80::1", 9999).
Proof.
  split; [reflexivity|]. apply X9_agent_url_injective. reflexivity.
Defined.

(** X10. Only 204 is accepted from the heartbeat endpoint: any other
    status, 200 included and whatever the headers, raises HeartbeatError
    with the message ['Invalid status code: ' + str(status)]. *)
Theorem X10_heartbeat_status_message : forall (py_float : string -> option Q) net api_url uuid addr r,
  net O (heartbeat_request api_url uuid addr) = Responded r ->
  status_code r <> codes_NO_CONTENT ->
  heartbeat py_float net api_url uuid addr
  = PyRaise (HeartbeatError
               (String.append "Invalid status code: " (py_str_int (status_code r)))).
Proof.
  intros py_float net api_url uuid addr r En Hs.
  unfold heartbeat, _request. fold (heartbeat_request api_url uuid addr). rewrite En.
  apply Z.eqb_neq in Hs. rewrite Hs. reflexivity.
Qed.

Lemma X10_witness :
  let r := mk_response 200 [("Heartbeat-Before", "120")] None in
  always (Responded r) O (heartbeat_request "http://ironic" "abc" ("10.0.0.1", 9999))
    = Responded r /\
  status_code r <> codes_NO_CONTENT /\
  heartbeat decimal_float (always (Responded r)) "http://ironic" "abc" ("10.0.0.1", 9999)
  = PyRaise (HeartbeatError "Invalid status code: 200").
Proof.
  cbv zeta. split; [reflexivity|]. split; [discriminate|].
  exact (X10_heartbeat_status_message decimal_float
           (always (Responded (mk_response 200 [("Heartbeat-Before", "120")] None)))
           "http://ironic" "abc" ("10.0.0.1", 9999) _ eq_refl ltac:(discriminate)).
Defined.

(** ** Helpers on the requests and the log of a run *)

Lemma dynamic_loop_ext {St : Type} (f g : nat -> St -> call_outcome * St * list log_entry) :
  (forall k s, f k s = g k s) ->
  forall fuel k s sl lg, dynamic_loop f fuel k s sl lg = dynamic_loop g fuel k s sl lg.
Proof.
  intros Hfg fuel. induction fuel as [|fuel IH]; intros k s sl lg; simpl; [reflexivity|].
  rewrite Hfg. destruct (g k s) as [[o s'] w]. destruct o; [apply IH | reflexivity].
Qed.

(** [_do_lookup] sees the network only through its answer to the lookup
    request. *)
Lemma do_lookup_net_ext : forall net net' api_url k hw timeout st,
  net k (lookup_request api_url hw) = net' k (lookup_request api_url hw) ->
  _do_lookup net api_url k hw timeout st = _do_lookup net' api_url k hw timeout st.
Proof.
  intros net net' api_url k hw timeout st E.
  unfold _do_lookup, do_lookup_body, _request. fold (lookup_request api_url hw).
  rewrite E. reflexivity.
Qed.

(** How many warnings the last invocation of a run did not log: one when
    the run ends on an accepted body or an escaped exception. *)
Definition silent_end (e : loop_end) : nat :=
  match e with
  | LoopDone rv => if is_py_True rv then 0 else 1
  | LoopRaised _ => 1
  | LoopOutOfFuel => 0
  end.

Section LoopLog.
Context {St : Type}.
Variable f : nat -> St -> call_outcome * St * list log_entry.
Variable P : St -> list Z -> Prop.
Hypothesis P_step : forall k s sl o s' w,
  P s sl -> f k s = (o, s', w) ->
  match o with Returned i => P s' (sl ++ [i]) | Raised _ => P s' sl end.
Hypothesis f_log : forall k s sl o s' w,
  P s sl -> f k s = (o, s', w) ->
  List.length w = match o with
                  | Returned _ => 1%nat
                  | Raised (LoopingCallDone rv) => if is_py_True rv then 1%nat else 0%nat
                  | Raised _ => 0%nat
                  end.

Lemma dynamic_loop_log : forall fuel k s sl lg,
  P s sl ->
  let r := dynamic_loop f fuel k s sl lg in
  (List.length (run_log r) + k + silent_end (run_end r) = List.length lg + run_calls r)%nat.
Proof.
  induction fuel as [|fuel IH]; intros k s sl lg Hp; simpl; [lia|].
  destruct (f k s) as [[o s'] w] eqn:E.
  pose proof (f_log _ _ _ _ _ _ Hp E) as Hw.
  pose proof (P_step _ _ _ _ _ _ Hp E) as Hs.
  destruct o as [i|e].
  - specialize (IH (S k) s' (sl ++ [i]) (lg ++ w) Hs). simpl in IH.
    rewrite length_app in IH. lia.
  - destruct e; simpl; rewrite length_app; try lia.
    destruct (is_py_True retvalue); lia.
Qed.
End LoopLog.

(** Every invocation of [_do_lookup] that does not end the run with an
    accepted body or an exception logs exactly one warning. *)
Lemma do_lookup_log_length : forall net api_url k hw timeout s st sl o st' w,
  lookup_inv timeout s st sl ->
  _do_lookup net api_url k hw timeout st = (o, st', w) ->
  List.length w = match o with
                  | Returned _ => 1%nat
                  | Raised (LoopingCallDone rv) => if is_py_True rv then 1%nat else 0%nat
                  | Raised _ => 0%nat
                  end.
Proof.
  intros net api_url k hw timeout s st sl o st' w Hinv H.
  pose proof (lookup_inv_last _ _ _ _ Hinv) as Hl.
  unfold _do_lookup, do_lookup_body in H. cbv zeta in H.
  repeat destruct_scrutinee_in H; try discriminate H;
    injection H as Ho Hs Hw; subst;
    match goal with
    | E : next_interval _ _ = (_, _) |- _ =>
        apply next_interval_cases in E; rewrite Hl in E;
        destruct E as [[E _] | [l' [_ [[_ [E _]] | [_ [E _]]]]]];
        [discriminate E | subst; reflexivity | subst; reflexivity]
    | E : py_contains _ _ = inl _ |- _ =>
        apply py_contains_error in E; subst; reflexivity
    | E : py_getitem _ _ = inl _ |- _ =>
        apply py_getitem_error in E; destruct E as [E | E]; subst; reflexivity
    | _ => idtac
    end.
  match goal with
  | G : py_contains "node" _ = inr true |- _ => rewrite (py_contains_not_True _ _ G)
  end.
  reflexivity.
Qed.

(** X11. Every attempt of [lookup_node] sends the same request, a POST of
    [{'hardware': hardware_info}] to [api_url + '/v1/drivers/teeth/vendor_passthru/lookup']:
    two services that answer that request alike, attempt by attempt, give
    the same run and the same result, whatever they answer to anything
    else. *)
Theorem X11_same_request_every_attempt : forall net net' api_url fuel hw timeout s,
  (forall k, net k (lookup_request api_url hw) = net' k (lookup_request api_url hw)) ->
  lookup_request api_url hw
  = mk_request "POST" (String.append api_url "/v1/drivers/teeth/vendor_passthru/lookup")
               (Some (JObj [("hardware", hw)])) /\
  lookup_run net api_url fuel hw timeout s = lookup_run net' api_url fuel hw timeout s /\
  lookup_node net api_url fuel hw timeout s = lookup_node net' api_url fuel hw timeout s.
Proof.
  intros net net' api_url fuel hw timeout s E.
  assert (Hr : lookup_run net api_url fuel hw timeout s = lookup_run net' api_url fuel hw timeout s).
  { unfold lookup_run, loop_start_wait. apply dynamic_loop_ext.
    intros k st. apply do_lookup_net_ext. apply E. }
  split; [reflexivity|]. split; [exact Hr|].
  unfold lookup_node. rewrite Hr. reflexivity.
Qed.

Lemma X11_witness :
  let net' := fun (_ : nat) (req : request) =>
    if String.eqb (req_url req) "http://ironic/v1/drivers/teeth/vendor_passthru/lookup"
    then resp 500 None else resp 200 (Some good_body) in
  (forall k, always (resp 500 None) k (lookup_request "http://ironic" JNull)
             = net' k (lookup_request "http://ironic" JNull)) /\
  lookup_request "http://ironic" JNull
  = mk_request "POST" (String.append "http://ironic" "/v1/drivers/teeth/vendor_passthru/lookup")
               (Some (JObj [("hardware", JNull)])) /\
  lookup_run (always (resp 500 None)) "http://ironic" 5 JNull 6 1
  = lookup_run net' "http://ironic" 5 JNull 6 1 /\
  lookup_node (always (resp 500 None)) "http://ironic" 5 JNull 6 1
  = lookup_node net' "http://ironic" 5 JNull 6 1.
Proof.
  intros net'.
  assert (E : forall k, always (resp 500 None) k (lookup_request "http://ironic" JNull)
                        = net' k (lookup_request "http://ironic" JNull))
    by (intros k; reflexivity).
  split; [exact E|].
  exact (X11_same_request_every_attempt (always (resp 500 None)) net' "http://ironic" 5 JNull 6 1 E).
Defined.

(** X12. [lookup_node] logs exactly one warning per failed attempt: the
    run's log has one entry per invocation of [_do_lookup], but for the
    last one when it ends the run with an accepted body or an exception;
    an attempt ended by the deadline check also logs its failure. *)
Theorem X12_one_warning_per_failed_attempt : forall net api_url fuel hw timeout s,
  let r := lookup_run net api_url fuel hw timeout s in
  (List.length (run_log r)
   + match run_end r with
     | LoopDone rv => if is_py_True rv then 0 else 1
     | LoopRaised _ => 1
     | LoopOutOfFuel => 0
     end = run_calls r)%nat.
Proof.
  intros net api_url fuel hw timeout s r.
  pose proof (dynamic_loop_log
    (fun k st => _do_lookup net api_url k hw timeout st) (lookup_inv timeout s)
    (fun k st sl o st' w Hinv H => lookup_inv_step _ _ _ _ _ _ _ _ _ _ _ Hinv H)
    (fun k st sl o st' w Hinv H => do_lookup_log_length _ _ _ _ _ _ _ _ _ _ _ Hinv H)
    fuel O (mk_retry_state [s] 0) [] [] (lookup_inv_init timeout s)) as H.
  cbv zeta in H. unfold r, lookup_run, loop_start_wait. unfold silent_end in H.
  simpl List.length in H. lia.
Qed.
